(** * calc_service: the calculator and kitchen-conversion integration

    A shallow embedding of [custom_components/calc_service/__init__.py]
    (and of the older evaluator in the repository's root [__init__.py]),
    followed by the properties of the safe expression evaluator, the unit
    converter, the shorthand recogniser and the service handler.

    Conventions of the embedding.
    - A Python [str] is the list of its code points ([pystr]).
    - Python values are a tagged union ([value]); [int] is [Z], [float] is
      a binary64 float of the kernel ([PrimFloat.float]).
    - A computation that can raise returns [result]: [Ok v] or [Err e] with
      the exception's class and its [str()].
    - The pieces of the Python runtime the integration calls but does not
      define ([ast.parse], [ast.dump], the [math] functions, operators on
      values that are not real numbers, [str()], the Unicode tables) are the
      fields of the class [Host]; every property is proved for all hosts.
    - The texts of the exceptions the runtime raises are abbreviated; the
      texts the integration builds itself are exact.
    - Interpreter resource limits (recursion depth, memory) are not
      modelled. *)

From Stdlib Require Import ZArith NArith List Floats String Ascii Lia Bool.
From stdpp Require Import base gmap list.
Import ListNotations.

#[local] Set Warnings "-inexact-float,-register-all".
#[local] Open Scope Z_scope.

(** ** Strings *)

Definition pystr := list N.

(** The code points of an ASCII literal. *)
Definition u (s : string) : pystr := map N_of_ascii (list_ascii_of_string s).

(** ** Exceptions and the error monad *)

Inductive exc_class :=
| SyntaxError
| ValueError
| NameError
| KeyError
| TypeError
| AttributeError
| ZeroDivisionError
| OverflowError
| OtherException (name : pystr).

(** An exception: its class and what [str(err)] gives. *)
Record exn := Exn { exc_type : exc_class; exc_str : pystr }.

Inductive result (A : Type) :=
| Ok (a : A)
| Err (e : exn).
Arguments Ok {A} a.
Arguments Err {A} e.

Definition bind {A B} (m : result A) (k : A -> result B) : result B :=
  match m with
  | Ok a => k a
  | Err e => Err e
  end.

Definition raise {A} (c : exc_class) (msg : pystr) : result A := Err (Exn c msg).

Notation "'let!' x ':=' m 'in' k" := (bind m (fun x => k))
  (at level 10, x name, m at level 100, k at level 200, only parsing).

Fixpoint mapM {A B} (f : A -> result B) (l : list A) : result (list B) :=
  match l with
  | [] => Ok []
  | a :: l' => let! b := f a in let! bs := mapM f l' in Ok (b :: bs)
  end.

(** ** Values *)

(** The functions of [math] that the symbol table exposes. *)
Inductive math_fn :=
| m_sin | m_cos | m_tan
| m_asin | m_acos | m_atan
| m_sqrt | m_log | m_log10 | m_log2 | m_exp.

Inductive callable :=
| MathFn (f : math_fn)
| ConvertFn.

Inductive value :=
| VInt (z : Z)
| VFloat (f : float)
| VBool (b : bool)
| VStr (s : pystr)
| VBytes (b : list N)
| VComplex (re im : float)
| VNone
| VEllipsis
| VFunc (f : callable).

(** The functions of [operator] stored in [OPS]. *)
Inductive op_fn := op_add | op_sub | op_mul | op_truediv | op_pow | op_mod | op_neg.

(** ** The syntax tree of [ast] *)

Inductive operator :=
| Add | Sub | Mult | MatMult | Div | Mod | Pow
| LShift | RShift | BitOr | BitXor | BitAnd | FloorDiv.

Inductive unaryop := Invert | Not | UAdd | USub.

Inductive boolop := And | Or.

Inductive cmpop := Eq | NotEq | Lt | LtE | Gt | GtE | Is | IsNot | In_ | NotIn.

(** The expression nodes. The nodes the evaluator accepts carry the fields
    it reads; of the others, those the specification names are spelled out
    and the remaining classes are [OtherExpr] with the class name. *)
Inductive expr :=
| Constant (v : value)
| BinOp (left : expr) (op : operator) (right : expr)
| UnaryOp (op : unaryop) (operand : expr)
| Name (id : pystr)
| Call (func : expr) (args : list expr) (keywords : list (option pystr * expr))
| Attribute (v : expr) (attr : pystr)
| Subscript (v : expr) (slice : expr)
| Compare (left : expr) (ops : list cmpop) (comparators : list expr)
| BoolOp (op : boolop) (values : list expr)
| IfExp (test body orelse : expr)
| Starred (v : expr)
| List_ (elts : list expr)
| Tuple (elts : list expr)
| OtherExpr (cls : pystr).

(** The classes [type(node.op)] ranges over: the keys of [OPS]. *)
Inductive op_class :=
| BinCls (o : operator)
| UnCls (o : unaryop).

Definition op_class_name (c : op_class) : pystr :=
  match c with
  | BinCls Add => u "Add" | BinCls Sub => u "Sub" | BinCls Mult => u "Mult"
  | BinCls MatMult => u "MatMult" | BinCls Div => u "Div" | BinCls Mod => u "Mod"
  | BinCls Pow => u "Pow" | BinCls LShift => u "LShift" | BinCls RShift => u "RShift"
  | BinCls BitOr => u "BitOr" | BinCls BitXor => u "BitXor"
  | BinCls BitAnd => u "BitAnd" | BinCls FloorDiv => u "FloorDiv"
  | UnCls Invert => u "Invert" | UnCls Not => u "Not"
  | UnCls UAdd => u "UAdd" | UnCls USub => u "USub"
  end.

(** ** The host: what the Python runtime provides *)

Class Host := {
  (** [ast.parse(expr, mode="eval").body], or the exception it raises *)
  ast_parse : pystr -> result expr;
  (** [ast.dump(node)] *)
  ast_dump : expr -> pystr;
  (** a function of [math] called on positional arguments: a float, or the
      [TypeError], [ValueError] or [OverflowError] it raises *)
  math_call : math_fn -> list value -> result float;
  (** [float.__pow__] (it can return a complex number) *)
  float_pow : float -> float -> result value;
  (** the C library's [fmod] *)
  fmod : float -> float -> float;
  (** an [operator] function on operands that are not both real numbers *)
  object_binop : op_fn -> value -> value -> result value;
  (** [operator.neg] on a value that is not a real number *)
  object_neg : value -> result value;
  (** [str(v)] for a value that is not a [str] *)
  object_str : value -> result pystr;
  (** the digit value of a non-ASCII code point of category Nd *)
  unicode_decimal : N -> option N;
  (** [str.lower] on a string with a non-ASCII code point *)
  unicode_lower : pystr -> pystr;
}.

(** ** Floats *)

(** [float(n)] of an integer, rounded to nearest even; infinite when [n] is
    out of range. *)
Definition Z2F (z : Z) : float := SF2Prim (binary_normalize prec emax z 0 false).

(** The quotient [a / b] of two integers ([b <> 0]) as the nearest float. *)
Definition Zdiv2F (a b : Z) : float :=
  if a =? 0 then (if b <? 0 then (-0)%float else 0%float)
  else SF2Prim (SFdiv prec emax
                  (S754_finite (a <? 0) (Z.to_pos (Z.abs a)) 0)
                  (S754_finite (b <? 0) (Z.to_pos (Z.abs b)) 0)).

Definition is_inf (f : float) : bool := PrimFloat.eqb (abs f) infinity.

Definition is_zero (f : float) : bool := PrimFloat.eqb f 0%float.

(** The integer a float is equal to, when it is finite and has no
    fractional part: [f.is_integer()] and [int(f)]. *)
Definition float_integral (f : float) : option Z :=
  match Prim2SF f with
  | S754_zero _ => Some 0
  | S754_finite s m e =>
      let n := if s then Z.neg m else Z.pos m in
      if 0 <=? e then Some (n * 2 ^ e)
      else if (Z.pos m) mod 2 ^ (- e) =? 0 then Some (n / 2 ^ (- e))
      else None
  | S754_infinity _ | S754_nan => None
  end.

(** ** Arithmetic on real numbers ([int], [bool], [float]) *)

Inductive real :=
| RInt (z : Z)
| RFloat (f : float).

Definition as_real (v : value) : option real :=
  match v with
  | VInt z => Some (RInt z)
  | VBool b => Some (RInt (Z.b2z b))
  | VFloat f => Some (RFloat f)
  | _ => None
  end.

(** [PyLong_AsDouble] *)
Definition int_to_float (z : Z) : result float :=
  let f := Z2F z in
  if is_inf f then raise OverflowError (u "int too large to convert to float")
  else Ok f.

Definition to_double (r : real) : result float :=
  match r with
  | RInt z => int_to_float z
  | RFloat f => Ok f
  end.

Section Arithmetic.
Context {H : Host}.

(** The operators on two floats: division and modulo by zero raise, the
    remainder takes the sign of the divisor. *)
Definition float_binop (f : op_fn) (x y : float) : result value :=
  match f with
  | op_add => Ok (VFloat (x + y))
  | op_sub => Ok (VFloat (x - y))
  | op_mul => Ok (VFloat (x * y))
  | op_truediv =>
      if is_zero y then raise ZeroDivisionError (u "float division by zero")
      else Ok (VFloat (x / y))
  | op_mod =>
      if is_zero y then raise ZeroDivisionError (u "float modulo")
      else
        let m := fmod x y in
        if is_zero m then Ok (VFloat (if PrimFloat.ltb y 0 then (-0) else 0))
        else if Bool.eqb (PrimFloat.ltb y 0) (PrimFloat.ltb m 0) then Ok (VFloat m)
        else Ok (VFloat (m + y))
  | op_pow => float_pow x y
  | op_neg => raise TypeError (u "neg expected 1 argument, got 2")
  end.

(** The operators on two integers: exact, except for true division, which
    gives the nearest float of the quotient, and for a negative exponent,
    which goes through the floats. *)
Definition int_binop (f : op_fn) (a b : Z) : result value :=
  match f with
  | op_add => Ok (VInt (a + b))
  | op_sub => Ok (VInt (a - b))
  | op_mul => Ok (VInt (a * b))
  | op_truediv =>
      if b =? 0 then raise ZeroDivisionError (u "division by zero")
      else
        let q := Zdiv2F a b in
        if is_inf q then raise OverflowError (u "integer division result too large for a float")
        else Ok (VFloat q)
  | op_mod =>
      if b =? 0 then raise ZeroDivisionError (u "integer modulo by zero")
      else Ok (VInt (a mod b))
  | op_pow =>
      if b <? 0 then
        let! x := int_to_float a in let! y := int_to_float b in float_pow x y
      else Ok (VInt (a ^ b))
  | op_neg => raise TypeError (u "neg expected 1 argument, got 2")
  end.

(** Mixed operands are converted to floats, left operand first. *)
Definition real_binop (f : op_fn) (a b : real) : result value :=
  match a, b with
  | RInt x, RInt y => int_binop f x y
  | _, _ => let! x := to_double a in let! y := to_double b in float_binop f x y
  end.

(** [operator.add(a, b)] and its siblings *)
Definition py_binop (f : op_fn) (a b : value) : result value :=
  match as_real a, as_real b with
  | Some x, Some y => real_binop f x y
  | _, _ => object_binop f a b
  end.

(** [operator.neg(a)] *)
Definition py_neg (a : value) : result value :=
  match as_real a with
  | Some (RInt z) => Ok (VInt (- z))
  | Some (RFloat f) => Ok (VFloat (- f))
  | None => object_neg a
  end.

(** Calling a function of [operator] on positional arguments. *)
Definition call_op (f : op_fn) (args : list value) : result value :=
  match f, args with
  | op_neg, [a] => py_neg a
  | op_neg, _ => raise TypeError (u "neg expected 1 argument")
  | _, [a; b] => py_binop f a b
  | _, _ => raise TypeError (u "expected 2 arguments")
  end.

(** [str(v)] *)
Definition py_str (v : value) : result pystr :=
  match v with
  | VStr s => Ok s
  | _ => object_str v
  end.

End Arithmetic.

(** ** Regular expressions: the fragment of [re] that [CONV_RE] is written in *)

Inductive regex :=
| Eps
| Chr (c : N)
| Cls (p : N -> bool)
| Cat (r1 r2 : regex)
| Alt (r1 r2 : regex)
| Star (r : regex)
| Group (i : nat) (r : regex)
| Bol
| Eol.

(** [r+] and [r?] (both greedy) *)
Definition Plus (r : regex) : regex := Cat r (Star r).
Definition Opt (r : regex) : regex := Alt r Eps.

Fixpoint Lit (s : pystr) : regex :=
  match s with
  | [] => Eps
  | c :: s' => Cat (Chr c) (Lit s')
  end.

Infix "⋅" := Cat (at level 41, right associativity).

(** The groups of a match object. *)
Definition groups := gmap nat pystr.

(** The greedy loop of [r*]: [step] matches [r] once; an iteration has to
    consume something, so [fuel = length s] is enough. After the longest
    run of iterations the loop continues with [k], and backs off one
    iteration at a time when [k] fails. *)
Fixpoint star_loop (step : pystr -> groups -> (pystr -> groups -> option groups) -> option groups)
    (k : pystr -> groups -> option groups) (fuel : nat) (s : pystr) (g : groups)
    {struct fuel} : option groups :=
  match fuel with
  | O => k s g
  | S fuel' =>
      match step s g (fun s' g' => if (length s' <? length s)%nat
                                   then star_loop step k fuel' s' g' else None) with
      | Some m => Some m
      | None => k s g
      end
  end.

(** The backtracking matcher: [rmatch input r s g k] matches [r] at the
    suffix [s] of [input], then runs the rest of the pattern [k] on what is
    left; alternatives are tried left to right and [Star] is greedy. *)
Fixpoint rmatch (input : pystr) (r : regex) (s : pystr) (g : groups)
    (k : pystr -> groups -> option groups) {struct r} : option groups :=
  match r with
  | Eps => k s g
  | Chr c =>
      match s with
      | x :: s' => if N.eqb x c then k s' g else None
      | [] => None
      end
  | Cls p =>
      match s with
      | x :: s' => if p x then k s' g else None
      | [] => None
      end
  | Cat r1 r2 => rmatch input r1 s g (fun s' g' => rmatch input r2 s' g' k)
  | Alt r1 r2 =>
      match rmatch input r1 s g k with
      | Some m => Some m
      | None => rmatch input r2 s g k
      end
  | Star r' => star_loop (rmatch input r') k (length s) s g
  | Group i r' =>
      rmatch input r' s g
        (fun s' g' => k s' (<[i := take (length s - length s') s]> g'))
  | Bol => if (length s =? length input)%nat then k s g else None
  | Eol =>
      match s with
      | [] => k s g
      | [10%N] => k s g
      | _ => None
      end
  end.

(** [pattern.match(s)]: a match anchored at the start of [s]. *)
Definition re_match (r : regex) (s : pystr) : option groups :=
  rmatch s r s ∅ (fun _ g => Some g).

(** [m.group(i)] *)
Definition group (m : groups) (i : nat) : value :=
  match m !! i with
  | Some s => VStr s
  | None => VNone
  end.

(** What a pattern matches, without the search order: [matches input r s
    rest g g'] when [r] can consume [s] in front of [rest], turning the
    groups [g] into [g']. *)
Inductive matches (input : pystr) : regex -> pystr -> pystr -> groups -> groups -> Prop :=
| M_eps rest g : matches input Eps [] rest g g
| M_chr c rest g : matches input (Chr c) [c] rest g g
| M_cls (p : N -> bool) c rest g : p c = true -> matches input (Cls p) [c] rest g g
| M_cat r1 r2 s1 s2 rest g g1 g2 :
    matches input r1 s1 (s2 ++ rest) g g1 ->
    matches input r2 s2 rest g1 g2 ->
    matches input (Cat r1 r2) (s1 ++ s2) rest g g2
| M_alt_l r1 r2 s rest g g' :
    matches input r1 s rest g g' -> matches input (Alt r1 r2) s rest g g'
| M_alt_r r1 r2 s rest g g' :
    matches input r2 s rest g g' -> matches input (Alt r1 r2) s rest g g'
| M_star_nil r rest g : matches input (Star r) [] rest g g
| M_star_cons r s1 s2 rest g g1 g2 :
    s1 <> [] ->
    matches input r s1 (s2 ++ rest) g g1 ->
    matches input (Star r) s2 rest g1 g2 ->
    matches input (Star r) (s1 ++ s2) rest g g2
| M_group i r s rest g g' :
    matches input r s rest g g' ->
    matches input (Group i r) s rest g (<[i := s]> g')
| M_bol rest g : length rest = length input -> matches input Bol [] rest g g
| M_eol rest g : rest = [] \/ rest = [10%N] -> matches input Eol [] rest g g.

(** ** Character classes and string methods *)

Definition in_range (lo hi c : N) : bool := (N.leb lo c && N.leb c hi)%bool.

(** [\s] on [str]: the code points for which [str.isspace] holds. *)
Definition is_space (c : N) : bool :=
  (in_range 9 13 c || in_range 28 32 c || N.eqb c 133 || N.eqb c 160
   || N.eqb c 5760 || in_range 8192 8202 c || N.eqb c 8232 || N.eqb c 8233
   || N.eqb c 8239 || N.eqb c 8287 || N.eqb c 12288)%bool.

(** [[a-zA-Z_]] *)
Definition is_unit_char (c : N) : bool :=
  (in_range 97 122 c || in_range 65 90 c || N.eqb c 95)%bool.

Definition ascii_lower (c : N) : N :=
  if in_range 65 90 c then (c + 32)%N else c.

Definition is_ascii (s : pystr) : bool := forallb (fun c => N.ltb c 128) s.

Section Unicode.
Context {H : Host}.

(** The value of a decimal digit ([Py_UNICODE_TODECIMAL]). *)
Definition decimal_value (c : N) : option N :=
  if N.ltb c 128 then (if in_range 48 57 c then Some (c - 48)%N else None)
  else unicode_decimal c.

(** [\d] on [str] *)
Definition is_digit (c : N) : bool :=
  match decimal_value c with Some _ => true | None => false end.

(** [s.lower()] *)
Definition str_lower (s : pystr) : pystr :=
  if is_ascii s then map ascii_lower s else unicode_lower s.

(** The number a run of decimal digits denotes, read after [acc]. *)
Fixpoint digits_value (acc : Z) (s : pystr) : option Z :=
  match s with
  | [] => Some acc
  | c :: s' =>
      match decimal_value c with
      | Some d => digits_value (10 * acc + Z.of_N d) s'
      | None => None
      end
  end.

(** The text before and after the first point. *)
Fixpoint split_point (s : pystr) : pystr * option pystr :=
  match s with
  | [] => ([], None)
  | c :: s' =>
      if N.eqb c 46 then ([], Some s')
      else let (a, b) := split_point s' in (c :: a, b)
  end.

(** [float(s)] for a string of decimal digits with at most one point in
    it, which is all group 1 of [CONV_RE] can hold: the nearest float of
    the decimal number. The other spellings [float] reads (sign, exponent,
    blanks, underscores, inf, nan) are outside the model and are refused
    here like a malformed string. *)
Definition float_of_str (s : pystr) : result float :=
  let bad := raise ValueError (u "could not convert string to float") in
  let (ip, fp) := split_point s in
  let fp := match fp with Some t => t | None => [] end in
  if (length ip + length fp =? 0)%nat then bad
  else
    match digits_value 0 ip with
    | Some a =>
        match digits_value a fp with
        | Some n => Ok (Zdiv2F n (10 ^ Z.of_nat (length fp)))
        | None => bad
        end
    | None => bad
    end.

(** [float(v)] *)
Definition py_float (v : value) : result value :=
  match v with
  | VStr s => let! f := float_of_str s in Ok (VFloat f)
  | VFloat f => Ok (VFloat f)
  | VInt z => let! f := int_to_float z in Ok (VFloat f)
  | VBool b => Ok (VFloat (Z2F (Z.b2z b)))
  | _ => raise TypeError (u "float() argument must be a string or a real number")
  end.

End Unicode.

(** ** [custom_components/calc_service/__init__.py] *)

(** *** math evaluation *)

Definition OPS (c : op_class) : option op_fn :=
  match c with
  | BinCls Add => Some op_add
  | BinCls Sub => Some op_sub
  | BinCls Mult => Some op_mul
  | BinCls Div => Some op_truediv
  | BinCls Pow => Some op_pow
  | BinCls Mod => Some op_mod
  | UnCls USub => Some op_neg
  | _ => None
  end.

(** [OPS[c]]: the entry, or the [KeyError] of a missing key. *)
Definition OPS_getitem (c : op_class) : result op_fn :=
  match OPS c with
  | Some f => Ok f
  | None => raise KeyError (u "<class 'ast." ++ op_class_name c ++ u "'>")
  end.

(** [math.pi], [math.e], [math.tau] *)
Definition math_pi : float := 3.141592653589793%float.
Definition math_e : float := 2.718281828459045%float.
Definition math_tau : float := 6.283185307179586%float.

(** [{name: getattr(math, name) for name in (...)}] *)
Definition math_names : gmap pystr value :=
  list_to_map
    [ (u "pi", VFloat math_pi); (u "e", VFloat math_e); (u "tau", VFloat math_tau);
      (u "sin", VFunc (MathFn m_sin)); (u "cos", VFunc (MathFn m_cos));
      (u "tan", VFunc (MathFn m_tan));
      (u "asin", VFunc (MathFn m_asin)); (u "acos", VFunc (MathFn m_acos));
      (u "atan", VFunc (MathFn m_atan));
      (u "sqrt", VFunc (MathFn m_sqrt)); (u "log", VFunc (MathFn m_log));
      (u "log10", VFunc (MathFn m_log10)); (u "log2", VFunc (MathFn m_log2));
      (u "exp", VFunc (MathFn m_exp)) ].

(** [MATH_FUNCS], after [MATH_FUNCS["convert"] = _convert]. *)
Definition MATH_FUNCS : gmap pystr value := <[u "convert" := VFunc ConvertFn]> math_names.

(** *** kitchen units *)

(** volume -> millilitres *)
Definition VOL_ML : gmap pystr value :=
  list_to_map
    [ (u "ml", VInt 1); (u "milliliter", VInt 1); (u "milliliters", VInt 1);
      (u "l", VInt 1000); (u "liter", VInt 1000); (u "liters", VInt 1000);
      (u "cup", VFloat 236.588); (u "cups", VFloat 236.588);
      (u "tbsp", VInt 15); (u "tablespoon", VInt 15); (u "tablespoons", VInt 15);
      (u "tsp", VInt 5); (u "teaspoon", VInt 5); (u "teaspoons", VInt 5);
      (u "fl_oz", VFloat 29.5735); (u "floz", VFloat 29.5735);
      (* "fl‑oz", written with U+2011 *)
      ([102; 108; 8209; 111; 122]%N, VFloat 29.5735);
      (u "fluidounce", VFloat 29.5735) ].

(** mass -> grams *)
Definition MASS_G : gmap pystr value :=
  list_to_map
    [ (u "g", VInt 1); (u "gram", VInt 1); (u "grams", VInt 1);
      (u "kg", VInt 1000); (u "kilogram", VInt 1000); (u "kilograms", VInt 1000);
      (u "oz", VFloat 28.3495); (u "ounce", VFloat 28.3495); (u "ounces", VFloat 28.3495);
      (u "lb", VFloat 453.592); (u "lbs", VFloat 453.592);
      (u "pound", VFloat 453.592); (u "pounds", VFloat 453.592) ].

(** [k in d] for a dictionary with [str] keys: a key that is not a [str]
    is equal to none of them. *)
Definition dict_in (k : value) (d : gmap pystr value) : bool :=
  match k with
  | VStr s => bool_decide (is_Some (d !! s))
  | _ => false
  end.

(** [d[k]] *)
Definition dict_getitem (d : gmap pystr value) (k : value) : result value :=
  match k with
  | VStr s =>
      match d !! s with
      | Some v => Ok v
      | None => raise KeyError (u "'" ++ s ++ u "'")
      end
  | _ => raise KeyError (u "key")
  end.

Section CalcService.
Context {H : Host}.

(** [v.lower()]: [str] and [bytes] have the method. *)
Definition lower_method (v : value) : result value :=
  match v with
  | VStr s => Ok (VStr (str_lower s))
  | VBytes b => Ok (VBytes (map ascii_lower b))
  | _ => raise AttributeError (u "object has no attribute 'lower'")
  end.

(** [f"Can't convert '{from_u}' to '{to_u}'"] *)
Definition cant_convert (from_u to_u : pystr) : pystr :=
  u "Can't convert '" ++ from_u ++ u "' to '" ++ to_u ++ u "'".

(** Convert between supported units. *)
Definition _convert (val from_u to_u : value) : result value :=
  let! fu := lower_method from_u in
  let! tu := lower_method to_u in
  if dict_in fu VOL_ML && dict_in tu VOL_ML then       (* volume -> volume *)
    let! sf := dict_getitem VOL_ML fu in
    let! x := py_binop op_mul val sf in
    let! st := dict_getitem VOL_ML tu in
    py_binop op_truediv x st
  else if dict_in fu MASS_G && dict_in tu MASS_G then  (* mass -> mass *)
    let! sf := dict_getitem MASS_G fu in
    let! x := py_binop op_mul val sf in
    let! st := dict_getitem MASS_G tu in
    py_binop op_truediv x st
  else
    let! a := py_str from_u in
    let! b := py_str to_u in
    raise ValueError (cant_convert a b).

(** *** expression helpers *)

Definition ws : regex := Star (Cls is_space).
Definition number : regex :=
  Plus (Cls is_digit) ⋅ Opt (Chr 46 ⋅ Plus (Cls is_digit)).
Definition unit_token : regex := Plus (Cls is_unit_char).
(** [(?:to|in|→|>)]; the arrow is U+2192 *)
Definition connector : regex :=
  Alt (Lit (u "to")) (Alt (Lit (u "in")) (Alt (Chr 8594) (Chr 62))).

(** [^\s*(\d+(?:\.\d+)?)\s*([a-zA-Z_]+)\s*(?:to|in|→|>)\s*([a-zA-Z_]+)\s*$] *)
Definition CONV_RE : regex :=
  Bol ⋅ ws ⋅ Group 1 number ⋅ ws ⋅ Group 2 unit_token ⋅ ws ⋅ connector
      ⋅ ws ⋅ Group 3 unit_token ⋅ ws ⋅ Eol.

(** [None] is [VNone]. *)
Definition try_unit_conversion (expr : pystr) : result value :=
  match re_match CONV_RE expr with
  | None => Ok VNone
  | Some m =>
      let! val := py_float (group m 1) in
      _convert val (group m 2) (group m 3)
  end.

(** Calling [func] on the evaluated positional arguments. *)
Definition call_value (func : value) (args : list value) : result value :=
  match func with
  | VFunc (MathFn f) => let! r := math_call f args in Ok (VFloat r)
  | VFunc ConvertFn =>
      match args with
      | [val; from_u; to_u] => _convert val from_u to_u
      | _ => raise TypeError (u "_convert() takes 3 positional arguments")
      end
  | _ => raise TypeError (u "object is not callable")
  end.

(** The evaluator. On the interpreters the integration runs on, a literal
    is an [ast.Constant], so the branch for [ast.Num] that follows it in
    the source is never taken. The table entry [OPS[type(node.op)]] is
    looked up before the operands are evaluated. *)
Fixpoint _eval (node : expr) : result value :=
  match node with
  | Constant v => Ok v
  | BinOp l op r =>
      let! f := OPS_getitem (BinCls op) in
      let! a := _eval l in
      let! b := _eval r in
      call_op f [a; b]
  | UnaryOp op operand =>
      let! f := OPS_getitem (UnCls op) in
      let! a := _eval operand in
      call_op f [a]
  | Name id =>
      match MATH_FUNCS !! id with
      | Some v => Ok v
      | None => raise NameError id
      end
  | Call func args _ =>
      let! f := _eval func in
      let! vs := (fix evals (l : list expr) : result (list value) :=
                    match l with
                    | [] => Ok []
                    | a :: l' =>
                        let! v := _eval a in
                        let! vs := evals l' in
                        Ok (v :: vs)
                    end) args in
      call_value f vs
  | _ => raise ValueError (u "Unsupported node: " ++ ast_dump node)
  end.

(** tidy floats that are whole numbers *)
Definition tidy (result : value) : value :=
  match result with
  | VFloat f =>
      match float_integral f with
      | Some n => VInt n
      | None => result
      end
  | _ => result
  end.

(** Evaluate arithmetic or convert units. *)
Definition safe_eval (expr : pystr) : result value :=
  (* quick path for "<value> unit to unit" *)
  let! maybe := try_unit_conversion expr in
  match maybe with
  | VNone =>
      let! tree := ast_parse expr in
      let! result := _eval tree in
      Ok (tidy result)
  | _ => Ok maybe
  end.

(** *** HA service *)

(** [call.data], validated by the schema [{Required("expression"): str}]. *)
Record ServiceCall := { expression : pystr }.

(** What the handler returns: [{"result": res}] or [{"error": msg}]. *)
Inductive response :=
| Result (res : value)
| Error (msg : pystr).

(** [hass.states]: entity id -> state. The write of the state machine is
    total, as the integration contract describes it. *)
Definition states := gmap pystr pystr.

Definition async_set (entity_id new_state : pystr) (st : states) : states :=
  <[entity_id := new_state]> st.

Definition calculator_result : pystr := u "input_text.calculator_result".

(** The body of the [try] block up to the state write. *)
Definition calculate_and_str (expr : pystr) : result (value * pystr) :=
  let! res := safe_eval expr in
  let! txt := py_str res in
  Ok (res, txt).

Definition handle_calculate (call : ServiceCall) (st : states) : states * response :=
  let expr := expression call in
  match calculate_and_str expr with
  | Ok (res, txt) => (async_set calculator_result txt st, Result res)
  | Err err =>
      (async_set calculator_result (u "error: " ++ exc_str err) st,
       Error (exc_str err))
  end.

End CalcService.

(** ** The repository's root [__init__.py]: the evaluator without units *)

Module Root.
Section Root.
Context {H : Host}.

(** allowed math names *)
Definition MATH : gmap pystr value := math_names.

Definition name_not_allowed (id : pystr) : pystr :=
  u "Use of name '" ++ id ++ u "' is not allowed".

Fixpoint _eval (node : expr) : result value :=
  match node with
  | Constant v => Ok v
  | BinOp l op r =>
      let! f := OPS_getitem (BinCls op) in
      let! a := _eval l in
      let! b := _eval r in
      call_op f [a; b]
  | UnaryOp op operand =>
      let! f := OPS_getitem (UnCls op) in
      let! a := _eval operand in
      call_op f [a]
  | Name id =>
      match MATH !! id with
      | Some v => Ok v
      | None => raise NameError (name_not_allowed id)
      end
  | Call func args _ =>
      let! f := _eval func in
      let! vs := (fix evals (l : list expr) : result (list value) :=
                    match l with
                    | [] => Ok []
                    | a :: l' =>
                        let! v := _eval a in
                        let! vs := evals l' in
                        Ok (v :: vs)
                    end) args in
      call_value f vs
  | _ => raise ValueError (u "Unsupported expression node: " ++ ast_dump node)
  end.

(** Parse & evaluate an expression in a restricted AST. *)
Definition safe_eval (expr : pystr) : result value :=
  let! tree := ast_parse expr in
  let! result := _eval tree in
  Ok (tidy result).

Definition calculate_and_str (expr : pystr) : result (value * pystr) :=
  let! res := safe_eval expr in
  let! txt := py_str res in
  Ok (res, txt).

Definition handle_calculate (call : ServiceCall) (st : states) : states * response :=
  let expr := expression call in
  match calculate_and_str expr with
  | Ok (res, txt) => (async_set calculator_result txt st, Result res)
  | Err e =>
      (async_set calculator_result (u "error: " ++ exc_str e) st,
       Error (exc_str e))
  end.

End Root.
End Root.


(** ** A host to run the definitions on *)

(** The trees [ast.parse] returns for a few expressions. *)
Definition sample_trees : list (pystr * expr) :=
  [ (u "10 / 4", BinOp (Constant (VInt 10)) Div (Constant (VInt 4)));
    (u "10 / 5", BinOp (Constant (VInt 10)) Div (Constant (VInt 5)));
    (u "2 + 2", BinOp (Constant (VInt 2)) Add (Constant (VInt 2)));
    (u "'abc'", Constant (VStr (u "abc")));
    (u "convert(2, 'l', 'ml')",
      Call (Name (u "convert"))
        [Constant (VInt 2); Constant (VStr (u "l")); Constant (VStr (u "ml"))] []);
    (u "os.system('x')",
      Call (Attribute (Name (u "os")) (u "system")) [Constant (VStr (u "x"))] []) ].

Fixpoint assoc (s : pystr) (l : list (pystr * expr)) : option expr :=
  match l with
  | [] => None
  | (k, v) :: l' => if bool_decide (k = s) then Some v else assoc s l'
  end.

Definition not_implemented {A} : result A :=
  raise (OtherException (u "NotImplementedError")) [].

(** A host that knows the parse trees above, has no digits and no letters
    beyond ASCII, and refuses whatever else it is asked. *)
Definition sample_host : Host := {|
  ast_parse s :=
    match assoc s sample_trees with
    | Some tree => Ok tree
    | None => raise SyntaxError (u "invalid syntax")
    end;
  ast_dump node :=
    match node with
    | Attribute (Name id) attr =>
        u "Attribute(value=Name(id='" ++ id ++ u "', ctx=Load()), attr='" ++ attr
          ++ u "', ctx=Load())"
    | _ => u "<node>"
    end;
  math_call _ _ := not_implemented;
  float_pow _ _ := not_implemented;
  fmod _ _ := nan;
  object_binop _ _ _ := raise TypeError (u "unsupported operand type(s)");
  object_neg _ := raise TypeError (u "bad operand type for unary -");
  object_str _ := not_implemented;
  unicode_decimal _ := None;
  unicode_lower s := s |}.

(** ** The specification's vocabulary *)

(** A number, as the specification's [EvalResult] has it: an integer or a
    floating-point value. *)
Definition is_number (v : value) : bool :=
  match v with
  | VInt _ | VFloat _ => true
  | _ => false
  end.

(** The closed variant set of the specification: numeric literals, the six
    binary operators, negation, name references and calls. *)
Definition in_closed_set (node : expr) : bool :=
  match node with
  | Constant v => is_number v
  | BinOp _ (Add | Sub | Mult | Div | Pow | Mod) _ => true
  | UnaryOp USub _ => true
  | Name _ => true
  | Call _ _ _ => true
  | _ => false
  end.

(** The node classes [_eval] has a branch for. *)
Definition has_branch (node : expr) : bool :=
  match node with
  | Constant _ | BinOp _ _ _ | UnaryOp _ _ | Name _ | Call _ _ _ => true
  | _ => false
  end.

(** Expressions whose value is a number whenever they have one: integer
    and floating-point literals, the constants, negation, the operators
    [+ - * / %], calls of the whitelisted [math] functions, and [convert]
    on such a value. *)
Inductive numeric_expr : expr -> Prop :=
| NE_int z : numeric_expr (Constant (VInt z))
| NE_float f : numeric_expr (Constant (VFloat f))
| NE_const id f : MATH_FUNCS !! id = Some (VFloat f) -> numeric_expr (Name id)
| NE_neg e : numeric_expr e -> numeric_expr (UnaryOp USub e)
| NE_bin l op r :
    op = Add \/ op = Sub \/ op = Mult \/ op = Div \/ op = Mod ->
    numeric_expr l -> numeric_expr r -> numeric_expr (BinOp l op r)
| NE_math id f args kws :
    MATH_FUNCS !! id = Some (VFunc (MathFn f)) ->
    numeric_expr (Call (Name id) args kws)
| NE_convert val from_u to_u kws :
    numeric_expr val ->
    numeric_expr (Call (Name (u "convert")) [val; from_u; to_u] kws).

(** [float(x)] of a scale factor of the unit tables. *)
Definition scale_of (v : value) : option float :=
  match v with
  | VInt z => Some (Z2F z)
  | VFloat f => Some f
  | _ => None
  end.

Definition scale (table : gmap pystr value) (unit : pystr) : option float :=
  match table !! unit with
  | Some v => scale_of v
  | None => None
  end.

(** A scale factor the converter can multiply and divide by: a number that
    is finite and not zero. *)
Definition good_scale (v : value) : bool :=
  match as_real v, scale_of v with
  | Some _, Some x => negb (is_inf x) && negb (is_zero x)
  | _, _ => false
  end.

(** The shape of the shorthand, in the specification's words. *)
Definition blank (w : pystr) : Prop := forallb is_space w = true.

Definition unit_name (t : pystr) : Prop :=
  t <> [] /\ forallb is_unit_char t = true.

Definition connector_token (c : pystr) : Prop :=
  c = u "to" \/ c = u "in" \/ c = [8594%N] \/ c = u ">".

Section Shape.
Context {H : Host}.

Definition digits (d : pystr) : Prop := d <> [] /\ forallb is_digit d = true.

(** an integer or a fractional number, no sign, no exponent *)
Definition decimal_number (n : pystr) : Prop :=
  digits n \/ exists ip fp, n = ip ++ [46%N] ++ fp /\ digits ip /\ digits fp.

(** [shorthand s n u1 u2]: the text [s] reads as the number [n], the unit
    [u1], a connector and the unit [u2], with optional blanks around them. *)
Definition shorthand (s n u1 u2 : pystr) : Prop :=
  exists w0 w1 w2 c w3 w4,
    s = w0 ++ n ++ w1 ++ u1 ++ w2 ++ c ++ w3 ++ u2 ++ w4 /\
    blank w0 /\ decimal_number n /\ blank w1 /\ unit_name u1 /\ blank w2 /\
    connector_token c /\ blank w3 /\ unit_name u2 /\ blank w4.

(** The units are in the same one of the two tables. *)
Definition same_table (fu tu : pystr) : Prop :=
  (is_Some (VOL_ML !! fu) /\ is_Some (VOL_ML !! tu)) \/
  (is_Some (MASS_G !! fu) /\ is_Some (MASS_G !! tu)).

End Shape.


(** The text [b] is empty or starts with a character outside the class [p]:
    a run of [p] characters in front of it cannot be extended. *)
Definition starts_outside (p : N -> bool) (b : pystr) : Prop :=
  match b with
  | [] => True
  | c :: _ => p c = false
  end.




(** The arithmetic path of [safe_eval]: parse, evaluate, tidy. *)
Definition arithmetic_path {H : Host} (expr : pystr) : result value :=
  let! tree := ast_parse expr in
  let! result := _eval tree in
  Ok (tidy result).

(** ** Reference readings for the further properties *)

(** The integer an expression denotes in ordinary arithmetic: integer
    literals under negation, [+ - *], the floor modulo by a divisor that is
    not zero and the power with an exponent that is not negative. *)
Inductive int_denotes : expr -> Z -> Prop :=
| ID_lit z : int_denotes (Constant (VInt z)) z
| ID_neg e z : int_denotes e z -> int_denotes (UnaryOp USub e) (- z)
| ID_add l r a b :
    int_denotes l a -> int_denotes r b -> int_denotes (BinOp l Add r) (a + b)
| ID_sub l r a b :
    int_denotes l a -> int_denotes r b -> int_denotes (BinOp l Sub r) (a - b)
| ID_mul l r a b :
    int_denotes l a -> int_denotes r b -> int_denotes (BinOp l Mult r) (a * b)
| ID_mod l r a b :
    int_denotes l a -> int_denotes r b -> b <> 0 ->
    int_denotes (BinOp l Mod r) (a mod b)
| ID_pow l r a b :
    int_denotes l a -> int_denotes r b -> 0 <= b ->
    int_denotes (BinOp l Pow r) (a ^ b).

(** The characters of a decimal number: a digit or the point. *)
Definition is_number_char {H : Host} (c : N) : bool :=
  (is_digit c || N.eqb c 46)%bool.

(** A scale factor that is finite and strictly positive. *)
Definition positive_scale (v : value) : bool :=
  match scale_of v with
  | Some x => (PrimFloat.ltb 0 x && negb (is_inf x))%bool
  | None => false
  end.

(** Two table entries with equal factors. *)
Definition same_factor (v v' : value) : bool :=
  match scale_of v, scale_of v' with
  | Some x, Some y => PrimFloat.eqb x y
  | _, _ => false
  end.

(** A value that can be called. *)
Definition is_callable (v : value) : bool :=
  match v with
  | VFunc _ => true
  | _ => false
  end.

(** The alias of the volume table that is written with U+2011. *)
Definition fl_hyphen_oz : pystr := [102; 108; 8209; 111; 122]%N.

(** [sample_host] with the parse trees of two more texts. *)
Definition sample_host_names : Host := {|
  ast_parse s :=
    if bool_decide (s = u "foo") then Ok (Name (u "foo"))
    else if bool_decide (s = u "2 + 3 * 4") then
      Ok (BinOp (Constant (VInt 2)) Add
            (BinOp (Constant (VInt 3)) Mult (Constant (VInt 4))))
    else @ast_parse sample_host s;
  ast_dump := @ast_dump sample_host;
  math_call := @math_call sample_host;
  float_pow := @float_pow sample_host;
  fmod := @fmod sample_host;
  object_binop := @object_binop sample_host;
  object_neg := @object_neg sample_host;
  object_str := @object_str sample_host;
  unicode_decimal := @unicode_decimal sample_host;
  unicode_lower := @unicode_lower sample_host |}.

(** * Properties *)

(** ** The matcher against the declarative reading of a pattern *)

Section MatcherFacts.
Variable input : pystr.

Lemma matches_any_groups r s rest g g' :
  matches input r s rest g g' -> forall h, exists h', matches input r s rest h h'.
Proof.
  induction 1; intros h.
  - eexists; constructor.
  - eexists; constructor.
  - eexists; constructor; assumption.
  - destruct (IHmatches1 h) as [h1 Hm1]. destruct (IHmatches2 h1) as [h2 Hm2].
    eexists; econstructor; eassumption.
  - destruct (IHmatches h) as [h' Hm]. eexists; apply M_alt_l; eassumption.
  - destruct (IHmatches h) as [h' Hm]. eexists; apply M_alt_r; eassumption.
  - eexists; constructor.
  - destruct (IHmatches1 h) as [h1 Hm1]. destruct (IHmatches2 h1) as [h2 Hm2].
    eexists; eapply M_star_cons; eassumption.
  - destruct (IHmatches h) as [h' Hm]. eexists; constructor; eassumption.
  - eexists; constructor; assumption.
  - eexists; constructor; assumption.
Qed.

Lemma take_consumed (s1 s2 : pystr) :
  take (length (s1 ++ s2) - length s2) (s1 ++ s2) = s1.
Proof.
  rewrite length_app. replace (length s1 + length s2 - length s2)%nat with (length s1) by lia.
  apply take_app_length.
Qed.

Lemma star_loop_sound r step k :
  (forall s g k' m, step s g k' = Some m ->
     exists s1 s2 g', s = s1 ++ s2 /\ matches input r s1 s2 g g' /\ k' s2 g' = Some m) ->
  forall fuel s g m, star_loop step k fuel s g = Some m ->
    exists s1 s2 g', s = s1 ++ s2 /\ matches input (Star r) s1 s2 g g' /\ k s2 g' = Some m.
Proof.
  intros Hstep. induction fuel as [|fuel IH]; intros s g m Hm; simpl in Hm.
  - exists [], s, g. split; [reflexivity|]. split; [constructor | assumption].
  - destruct (step s g _) as [m'|] eqn:E.
    + injection Hm as ->. apply Hstep in E as (s1 & s2 & g1 & -> & Hr & Hk).
      destruct (length s2 <? length (s1 ++ s2))%nat eqn:Hlt; [|discriminate].
      apply Nat.ltb_lt in Hlt.
      apply IH in Hk as (t1 & t2 & g2 & -> & Hs & Hk).
      exists (s1 ++ t1), t2, g2. split; [apply app_assoc|]. split; [|assumption].
      eapply M_star_cons; eauto.
      intros ->. simpl in Hlt. lia.
    + exists [], s, g. split; [reflexivity|]. split; [constructor | assumption].
Qed.

Lemma rmatch_sound r : forall s g k m,
  rmatch input r s g k = Some m ->
  exists s1 s2 g', s = s1 ++ s2 /\ matches input r s1 s2 g g' /\ k s2 g' = Some m.
Proof.
  induction r as [ | c | p | r1 IH1 r2 IH2 | r1 IH1 r2 IH2 | r IH | i r IH | | ];
    intros s g k m Hm; simpl in Hm.
  - exists [], s, g. repeat split; [constructor | assumption].
  - destruct s as [|x s]; [discriminate|].
    destruct (N.eqb x c) eqn:E; [|discriminate]. apply N.eqb_eq in E as ->.
    exists [c], s, g. repeat split; [constructor | assumption].
  - destruct s as [|x s]; [discriminate|].
    destruct (p x) eqn:E; [|discriminate].
    exists [x], s, g. repeat split; [constructor; assumption | assumption].
  - apply IH1 in Hm as (s1 & s2 & g1 & -> & H1 & Hm).
    apply IH2 in Hm as (t1 & t2 & g2 & -> & H2 & Hm).
    exists (s1 ++ t1), t2, g2. split; [apply app_assoc|]. split; [|assumption].
    econstructor; eassumption.
  - destruct (rmatch input r1 s g k) as [m'|] eqn:E.
    + injection Hm as ->. apply IH1 in E as (s1 & s2 & g1 & -> & H1 & Hk).
      exists s1, s2, g1. repeat split; [apply M_alt_l|]; assumption.
    + apply IH2 in Hm as (s1 & s2 & g1 & -> & H1 & Hk).
      exists s1, s2, g1. repeat split; [apply M_alt_r|]; assumption.
  - eapply star_loop_sound; [|eassumption]. intros; eapply IH; eassumption.
  - apply IH in Hm as (s1 & s2 & g1 & -> & H1 & Hk).
    rewrite take_consumed in Hk.
    exists s1, s2, (<[i := s1]> g1). repeat split; [constructor|]; assumption.
  - destruct (length s =? length input)%nat eqn:E; [|discriminate].
    apply Nat.eqb_eq in E.
    exists [], s, g. repeat split; [constructor|]; assumption.
  - exists [], s, g. split; [reflexivity|].
    destruct s as [|x [|y s]].
    + split; [constructor; left; reflexivity | assumption].
    + destruct x as [|x]; [discriminate|].
      repeat (destruct x as [x|x|]; try discriminate).
      split; [constructor; right; reflexivity | assumption].
    + destruct x as [|x]; [discriminate|].
      repeat (destruct x as [x|x|]; try discriminate).
Qed.

Lemma star_loop_complete r step k :
  (forall s1 s2 g g' k', matches input r s1 s2 g g' ->
     (forall h, k' s2 h <> None) -> step (s1 ++ s2) g k' <> None) ->
  forall fuel s1 s2 g g',
    (length (s1 ++ s2) <= fuel)%nat ->
    matches input (Star r) s1 s2 g g' ->
    (forall h, k s2 h <> None) ->
    star_loop step k fuel (s1 ++ s2) g <> None.
Proof.
  intros Hstep. induction fuel as [|fuel IH]; intros s1 s2 g g' Hlen Hm Hk.
  - destruct s1; [|simpl in Hlen; lia]. simpl. apply Hk.
  - inversion Hm as [ | | | | | | | ? t1 t2 ? ? g1 ? Hne Hr Hs | | | ]; subst; simpl.
    + match goal with |- context [step ?a ?b ?c] => destruct (step a b c) end;
        [discriminate | apply Hk].
    + match goal with |- context [step ?a ?b ?c] => destruct (step a b c) eqn:E end;
        [discriminate|]. exfalso. revert E. rewrite <- app_assoc.
      eapply Hstep; [eassumption|].
      intros h.
      assert (length (t2 ++ s2) < length (t1 ++ t2 ++ s2))%nat as Hlt.
      { rewrite (length_app t1). destruct t1; [congruence | simpl; lia]. }
      pose proof Hlt as Hlt'. apply Nat.ltb_lt in Hlt'. rewrite Hlt'.
      destruct (matches_any_groups _ _ _ _ _ Hs h) as [h' Hm'].
      eapply IH; [|exact Hm'|exact Hk].
      rewrite <- app_assoc in Hlen. simpl in Hlen. lia.
Qed.

Lemma rmatch_complete r : forall s1 s2 g g' k,
  matches input r s1 s2 g g' ->
  (forall h, k s2 h <> None) ->
  rmatch input r (s1 ++ s2) g k <> None.
Proof.
  induction r as [ | c | p | r1 IH1 r2 IH2 | r1 IH1 r2 IH2 | r IH | i r IH | | ];
    intros s1 s2 g g' k Hm Hk.
  - inversion Hm; subst. apply Hk.
  - inversion Hm; subst. simpl. rewrite N.eqb_refl. apply Hk.
  - inversion Hm as [ | | ? ? ? ? Hp | | | | | | | | ]; subst. simpl. rewrite Hp. apply Hk.
  - inversion Hm as [ | | | ? ? t1 t2 ? ? g1 ? Hm1 Hm2 | | | | | | | ]; subst. simpl.
    rewrite <- app_assoc. eapply IH1; [eassumption|].
    intros h. destruct (matches_any_groups _ _ _ _ _ Hm2 h) as [h' Hm'].
    eapply IH2; eassumption.
  - simpl. destruct (rmatch input r1 (s1 ++ s2) g k) eqn:E; [discriminate|].
    inversion Hm; subst.
    + exfalso. revert E. eapply IH1; eassumption.
    + eapply IH2; eassumption.
  - simpl. eapply star_loop_complete; [| reflexivity | exact Hm | exact Hk].
    intros; eapply IH; eassumption.
  - inversion Hm; subst. simpl. eapply IH; [eassumption|]. intros h. apply Hk.
  - inversion Hm as [ | | | | | | | | | ? ? Hlen | ]; subst. simpl.
    rewrite Hlen, Nat.eqb_refl. apply Hk.
  - inversion Hm as [ | | | | | | | | | | ? ? Hrest ]; subst. simpl.
    destruct Hrest as [-> | ->]; apply Hk.
Qed.

End MatcherFacts.

(** ** What [CONV_RE] matches *)

Ltac invc H := inversion H; subst; clear H.

Section PatternFacts.
Context {H : Host}.
Variable input : pystr.

Lemma star_cls_inv (p : N -> bool) s rest g g' :
  matches input (Star (Cls p)) s rest g g' -> forallb p s = true /\ g' = g.
Proof.
  remember (Star (Cls p)) as r eqn:Er. induction 1; try discriminate.
  - split; reflexivity.
  - injection Er as ->. match goal with Hc : matches _ (Cls _) _ _ _ _ |- _ => invc Hc end.
    destruct IHmatches2 as [Hall ->]; [reflexivity|].
    split; [|reflexivity]. simpl. rewrite Hall.
    match goal with Hp : p _ = true |- _ => rewrite Hp end. reflexivity.
Qed.

Lemma star_cls_intro (p : N -> bool) s rest g :
  forallb p s = true -> matches input (Star (Cls p)) s rest g g.
Proof.
  induction s as [|c s IH]; simpl; intros Hall.
  - constructor.
  - apply andb_prop in Hall as [Hc Hs].
    change (c :: s) with ([c] ++ s). eapply M_star_cons.
    + discriminate.
    + constructor. exact Hc.
    + apply IH. exact Hs.
Qed.

Lemma plus_cls_inv (p : N -> bool) s rest g g' :
  matches input (Plus (Cls p)) s rest g g' ->
  (s <> [] /\ forallb p s = true) /\ g' = g.
Proof.
  intros Hm. invc Hm.
  match goal with Hc : matches _ (Cls _) _ _ _ _ |- _ => invc Hc end.
  match goal with Hs : matches _ (Star _) _ _ _ _ |- _ => apply star_cls_inv in Hs as [Hall ->] end.
  split; [|reflexivity]. split; [discriminate|]. simpl.
  match goal with Hp : p _ = true |- _ => rewrite Hp end. exact Hall.
Qed.

Lemma plus_cls_intro (p : N -> bool) s rest g :
  s <> [] -> forallb p s = true -> matches input (Plus (Cls p)) s rest g g.
Proof.
  destruct s as [|c s]; [congruence|]. intros _ Hall. simpl in Hall.
  apply andb_prop in Hall as [Hc Hs].
  change (c :: s) with ([c] ++ s). unfold Plus. econstructor.
  - constructor. exact Hc.
  - apply star_cls_intro. exact Hs.
Qed.

Lemma lit_inv l s rest g g' :
  matches input (Lit l) s rest g g' -> s = l /\ g' = g.
Proof.
  revert s g g'. induction l as [|c l IH]; simpl; intros s g g' Hm.
  - invc Hm. split; reflexivity.
  - invc Hm. match goal with Hc : matches _ (Chr _) _ _ _ _ |- _ => invc Hc end.
    match goal with Hl : matches _ (Lit _) _ _ _ _ |- _ => apply IH in Hl as [-> ->] end.
    split; reflexivity.
Qed.

Lemma lit_intro l rest g : matches input (Lit l) l rest g g.
Proof.
  induction l as [|c l IH]; simpl.
  - constructor.
  - change (c :: l) with ([c] ++ l). econstructor; [constructor | exact IH].
Qed.

Lemma ws_inv s rest g g' :
  matches input ws s rest g g' -> blank s /\ g' = g.
Proof. apply star_cls_inv. Qed.

Lemma ws_intro s rest g : blank s -> matches input ws s rest g g.
Proof. apply star_cls_intro. Qed.

Lemma unit_token_inv s rest g g' :
  matches input unit_token s rest g g' -> unit_name s /\ g' = g.
Proof. apply plus_cls_inv. Qed.

Lemma unit_token_intro s rest g : unit_name s -> matches input unit_token s rest g g.
Proof. intros [Hne Hall]. apply plus_cls_intro; assumption. Qed.

Lemma number_inv s rest g g' :
  matches input number s rest g g' -> decimal_number s /\ g' = g.
Proof.
  intros Hm. invc Hm.
  match goal with Hp : matches _ (Plus _) _ _ _ _ |- _ => apply plus_cls_inv in Hp as [Hip ->] end.
  match goal with Ho : matches _ (Opt _) _ _ _ _ |- _ => invc Ho end.
  - match goal with Hc : matches _ (Cat _ _) _ _ _ _ |- _ => invc Hc end.
    match goal with Hc : matches _ (Chr _) _ _ _ _ |- _ => invc Hc end.
    match goal with Hp : matches _ (Plus _) _ _ _ _ |- _ => apply plus_cls_inv in Hp as [Hfp ->] end.
    split; [|reflexivity]. right. eexists _, _. split; [reflexivity|]. split; assumption.
  - match goal with He : matches _ Eps _ _ _ _ |- _ => invc He end.
    rewrite app_nil_r. split; [|reflexivity]. left. exact Hip.
Qed.

Lemma number_intro s rest g : decimal_number s -> matches input number s rest g g.
Proof.
  intros [[Hne Hall] | (ip & fp & -> & [Hne1 Hall1] & [Hne2 Hall2])]; unfold number.
  - rewrite <- (app_nil_r s). econstructor.
    + apply plus_cls_intro; assumption.
    + apply M_alt_r. constructor.
  - econstructor.
    + apply plus_cls_intro; assumption.
    + apply M_alt_l. econstructor; [constructor|]. apply plus_cls_intro; assumption.
Qed.

Lemma connector_inv s rest g g' :
  matches input connector s rest g g' -> connector_token s /\ g' = g.
Proof.
  intros Hm. unfold connector_token.
  inversion Hm as [ | | | | ? ? ? ? ? ? Hl | ? ? ? ? ? ? Hr | | | | | ]; subst; clear Hm.
  - apply (lit_inv (u "to")) in Hl as [-> ->]. auto.
  - inversion Hr as [ | | | | ? ? ? ? ? ? Hl | ? ? ? ? ? ? Hr' | | | | | ]; subst; clear Hr.
    + apply (lit_inv (u "in")) in Hl as [-> ->]. auto.
    + inversion Hr' as [ | | | | ? ? ? ? ? ? Hl | ? ? ? ? ? ? Hr | | | | | ]; subst; clear Hr'.
      * inversion Hl; subst. auto.
      * inversion Hr; subst. auto.
Qed.

Lemma connector_intro s rest g : connector_token s -> matches input connector s rest g g.
Proof.
  intros [-> | [-> | [-> | ->]]]; unfold connector.
  - apply M_alt_l, lit_intro.
  - apply M_alt_r, M_alt_l, lit_intro.
  - apply M_alt_r, M_alt_r, M_alt_l. constructor.
  - apply M_alt_r, M_alt_r, M_alt_r. constructor.
Qed.

Lemma blank_app a b : blank a -> blank b -> blank (a ++ b).
Proof. unfold blank. intros Ha Hb. rewrite forallb_app, Ha, Hb. reflexivity. Qed.

Lemma cat_inv r1 r2 s rest g g' :
  matches input (Cat r1 r2) s rest g g' ->
  exists s1 s2 g1, s = s1 ++ s2 /\ matches input r1 s1 (s2 ++ rest) g g1 /\
                   matches input r2 s2 rest g1 g'.
Proof. intros Hm. inversion Hm; subst. eauto 7. Qed.

Lemma group_inv i r s rest g g' :
  matches input (Group i r) s rest g g' ->
  exists g1, matches input r s rest g g1 /\ g' = <[i := s]> g1.
Proof. intros Hm. inversion Hm; subst. eauto. Qed.

Lemma CONV_RE_inv s rest g' :
  matches input CONV_RE s rest ∅ g' ->
  exists n u1 u2,
    g' !! 1%nat = Some n /\ g' !! 2%nat = Some u1 /\ g' !! 3%nat = Some u2 /\
    shorthand (s ++ rest) n u1 u2.
Proof.
  intros Hm. unfold CONV_RE in Hm.
  apply cat_inv in Hm as (b & t0 & g0 & -> & Hbol & Hm). inversion Hbol; subst; clear Hbol.
  apply cat_inv in Hm as (w0 & t1 & g1 & -> & Hw0 & Hm). apply ws_inv in Hw0 as [Hw0 ->].
  apply cat_inv in Hm as (n & t2 & g2 & -> & Hn & Hm).
  apply group_inv in Hn as (h1 & Hn & ->). apply number_inv in Hn as [Hn ->].
  apply cat_inv in Hm as (w1 & t3 & g3 & -> & Hw1 & Hm). apply ws_inv in Hw1 as [Hw1 ->].
  apply cat_inv in Hm as (u1 & t4 & g4 & -> & Hu1 & Hm).
  apply group_inv in Hu1 as (h2 & Hu1 & ->). apply unit_token_inv in Hu1 as [Hu1 ->].
  apply cat_inv in Hm as (w2 & t5 & g5 & -> & Hw2 & Hm). apply ws_inv in Hw2 as [Hw2 ->].
  apply cat_inv in Hm as (c & t6 & g6 & -> & Hc & Hm). apply connector_inv in Hc as [Hc ->].
  apply cat_inv in Hm as (w3 & t7 & g7 & -> & Hw3 & Hm). apply ws_inv in Hw3 as [Hw3 ->].
  apply cat_inv in Hm as (u2 & t8 & g8 & -> & Hu2 & Hm).
  apply group_inv in Hu2 as (h3 & Hu2 & ->). apply unit_token_inv in Hu2 as [Hu2 ->].
  apply cat_inv in Hm as (w4 & t9 & g9 & -> & Hw4 & Hm). apply ws_inv in Hw4 as [Hw4 ->].
  inversion Hm as [ | | | | | | | | | | ? ? Hrest ]; subst; clear Hm.
  exists n, u1, u2.
  split; [|split; [|split]].
  - unfold groups in *. rewrite !lookup_insert_ne by discriminate. apply lookup_insert_eq.
  - unfold groups in *. rewrite lookup_insert_ne by discriminate. apply lookup_insert_eq.
  - unfold groups in *. apply lookup_insert_eq.
  - exists w0, w1, w2, c, w3, (w4 ++ rest).
    split; [simpl; rewrite <- !app_assoc; reflexivity|].
    repeat (split; [assumption|]).
    apply blank_app; [assumption|].
    destruct Hrest as [-> | ->]; reflexivity.
Qed.

Lemma CONV_RE_intro s n u1 u2 :
  length s = length input ->
  shorthand s n u1 u2 -> exists g', matches input CONV_RE s [] ∅ g'.
Proof.
  intros Hlen (w0 & w1 & w2 & c & w3 & w4 & -> & Hw0 & Hn & Hw1 & Hu1 & Hw2 & Hc & Hw3 & Hu2 & Hw4).
  eexists. unfold CONV_RE.
  change (w0 ++ n ++ w1 ++ u1 ++ w2 ++ c ++ w3 ++ u2 ++ w4)
    with ([] ++ w0 ++ n ++ w1 ++ u1 ++ w2 ++ c ++ w3 ++ u2 ++ w4).
  econstructor; [constructor; rewrite app_nil_r; exact Hlen|].
  econstructor; [apply ws_intro; exact Hw0|].
  econstructor; [constructor; apply number_intro; exact Hn|].
  econstructor; [apply ws_intro; exact Hw1|].
  econstructor; [constructor; apply unit_token_intro; exact Hu1|].
  econstructor; [apply ws_intro; exact Hw2|].
  econstructor; [apply connector_intro; exact Hc|].
  econstructor; [apply ws_intro; exact Hw3|].
  econstructor; [constructor; apply unit_token_intro; exact Hu2|].
  rewrite <- (app_nil_r w4).
  econstructor; [apply ws_intro; exact Hw4|].
  constructor. left. reflexivity.
Qed.

End PatternFacts.

Section Recogniser.
Context {H : Host}.

Lemma re_match_shorthand s m :
  re_match CONV_RE s = Some m ->
  exists n u1 u2,
    m !! 1%nat = Some n /\ m !! 2%nat = Some u1 /\ m !! 3%nat = Some u2 /\
    shorthand s n u1 u2.
Proof.
  unfold re_match. intros Hm.
  apply rmatch_sound in Hm as (s1 & s2 & g' & -> & Hm & Hk).
  injection Hk as ->. eapply CONV_RE_inv. exact Hm.
Qed.

Lemma shorthand_re_match s n u1 u2 :
  shorthand s n u1 u2 -> re_match CONV_RE s <> None.
Proof.
  intros Hs. unfold re_match.
  destruct (CONV_RE_intro s s n u1 u2 eq_refl Hs) as [g' Hm].
  rewrite <- (app_nil_r s) at 2.
  eapply rmatch_complete; [exact Hm|]. discriminate.
Qed.

End Recogniser.

(** ** The unit tables and the converter *)

Lemma Z2F_zero : Z2F 0 = 0%float.
Proof. vm_compute. reflexivity. Qed.

Lemma map_Forall_bool (P : pystr -> value -> bool) (m : gmap pystr value) :
  forallb (fun kv => P kv.1 kv.2) (map_to_list m) = true ->
  map_Forall (fun k v => P k v = true) m.
Proof.
  intros Hb. apply map_Forall_to_list. apply Forall_forall. intros [k v] Hin.
  apply list_elem_of_In in Hin. rewrite forallb_forall in Hb. apply (Hb (k, v) Hin).
Qed.

Lemma VOL_ML_scales : map_Forall (fun _ v => good_scale v = true) VOL_ML.
Proof. apply (map_Forall_bool (fun _ v => good_scale v)). vm_compute. reflexivity. Qed.

Lemma MASS_G_scales : map_Forall (fun _ v => good_scale v = true) MASS_G.
Proof. apply (map_Forall_bool (fun _ v => good_scale v)). vm_compute. reflexivity. Qed.

Lemma tables_disjoint k : is_Some (VOL_ML !! k) -> MASS_G !! k = None.
Proof.
  intros [v Hv].
  assert (map_Forall (fun k _ => match MASS_G !! k with None => true | Some _ => false end = true)
            VOL_ML) as Hd.
  { apply (map_Forall_bool (fun k _ => match MASS_G !! k with None => true | Some _ => false end)).
    vm_compute. reflexivity. }
  apply Hd in Hv. cbv beta in Hv. destruct (MASS_G !! k); [discriminate | reflexivity].
Qed.

Lemma not_both_tables k : is_Some (VOL_ML !! k) -> is_Some (MASS_G !! k) -> False.
Proof.
  intros Hv [w Hw]. apply tables_disjoint in Hv. congruence.
Qed.

Section Converter.
Context {H : Host}.

Lemma scale_mul_div (v : float) sf st x y :
  good_scale sf = true -> good_scale st = true ->
  scale_of sf = Some x -> scale_of st = Some y ->
  (let! a := py_binop op_mul (VFloat v) sf in py_binop op_truediv a st)
  = Ok (VFloat (v * x / y)).
Proof.
  unfold good_scale. intros Gf Gt Sf St.
  destruct sf; try discriminate; destruct st; try discriminate;
    simpl in *; injection Sf as <-; injection St as <-;
    apply andb_prop in Gf as [If Zf]; apply andb_prop in Gt as [It Zt];
    apply negb_true_iff in If, Zf, It, Zt;
    unfold py_binop, int_to_float; simpl;
    unfold int_to_float; rewrite ?If, ?It; simpl;
    unfold int_to_float; rewrite ?If, ?It; simpl; rewrite Zt; reflexivity.
Qed.

Lemma dict_in_str k d : dict_in (VStr k) d = true <-> is_Some (d !! k).
Proof. unfold dict_in. apply bool_decide_eq_true. Qed.

Lemma convert_in_table table (v : float) f t x y :
  (table = VOL_ML \/ table = MASS_G) ->
  scale table (str_lower f) = Some x -> scale table (str_lower t) = Some y ->
  _convert (VFloat v) (VStr f) (VStr t) = Ok (VFloat (v * x / y)).
Proof.
  unfold scale. intros Ht Sf St.
  destruct (table !! str_lower f) as [sf|] eqn:Ef; [|discriminate].
  destruct (table !! str_lower t) as [st|] eqn:Et; [|discriminate].
  unfold _convert. cbn [bind lower_method].
  destruct Ht as [-> | ->].
  - assert (dict_in (VStr (str_lower f)) VOL_ML = true) as -> by (apply dict_in_str; eauto).
    assert (dict_in (VStr (str_lower t)) VOL_ML = true) as -> by (apply dict_in_str; eauto).
    cbn [andb]. unfold dict_getitem. rewrite Ef, Et. cbn [bind].
    apply (scale_mul_div v sf st x y); [eapply VOL_ML_scales | eapply VOL_ML_scales | | ];
      eassumption.
  - assert (dict_in (VStr (str_lower f)) VOL_ML = false) as ->.
    { apply not_true_is_false. intros Hin. apply dict_in_str in Hin.
      eapply not_both_tables; eauto. }
    assert (dict_in (VStr (str_lower f)) MASS_G = true) as -> by (apply dict_in_str; eauto).
    assert (dict_in (VStr (str_lower t)) MASS_G = true) as -> by (apply dict_in_str; eauto).
    cbn [andb]. unfold dict_getitem. rewrite Ef, Et. cbn [bind].
    apply (scale_mul_div v sf st x y); [eapply MASS_G_scales | eapply MASS_G_scales | | ];
      eassumption.
Qed.

Lemma convert_not_same_table val f t :
  ~ same_table (str_lower f) (str_lower t) ->
  _convert val (VStr f) (VStr t) = Err (Exn ValueError (cant_convert f t)).
Proof.
  intros Hn. unfold _convert. cbn [bind lower_method].
  destruct (dict_in (VStr (str_lower f)) VOL_ML && dict_in (VStr (str_lower t)) VOL_ML) eqn:Ev.
  { exfalso. apply Hn. left. apply andb_prop in Ev as [E1 E2].
    split; apply dict_in_str; assumption. }
  destruct (dict_in (VStr (str_lower f)) MASS_G && dict_in (VStr (str_lower t)) MASS_G) eqn:Em.
  { exfalso. apply Hn. right. apply andb_prop in Em as [E1 E2].
    split; apply dict_in_str; assumption. }
  reflexivity.
Qed.

(** With both units in one table the converter multiplies by the factor of
    the first and divides by the factor of the second, whatever the value. *)
Lemma convert_arith table val f t sf st :
  (table = VOL_ML \/ table = MASS_G) ->
  table !! str_lower f = Some sf -> table !! str_lower t = Some st ->
  _convert val (VStr f) (VStr t)
  = (let! a := py_binop op_mul val sf in py_binop op_truediv a st).
Proof.
  intros Ht Ef Et. unfold _convert. cbn [bind lower_method].
  destruct Ht as [-> | ->].
  - assert (dict_in (VStr (str_lower f)) VOL_ML = true) as -> by (apply dict_in_str; eauto).
    assert (dict_in (VStr (str_lower t)) VOL_ML = true) as -> by (apply dict_in_str; eauto).
    cbn [andb]. unfold dict_getitem. rewrite Ef, Et. cbn [bind].
    destruct (py_binop op_mul val sf); reflexivity.
  - assert (dict_in (VStr (str_lower f)) VOL_ML = false) as ->.
    { apply not_true_is_false. intros Hin. apply dict_in_str in Hin.
      eapply not_both_tables; eauto. }
    assert (dict_in (VStr (str_lower f)) MASS_G = true) as -> by (apply dict_in_str; eauto).
    assert (dict_in (VStr (str_lower t)) MASS_G = true) as -> by (apply dict_in_str; eauto).
    cbn [andb]. unfold dict_getitem. rewrite Ef, Et. cbn [bind].
    destruct (py_binop op_mul val sf); reflexivity.
Qed.

Lemma good_scale_some v : good_scale v = true -> exists x, scale_of v = Some x.
Proof. unfold good_scale. destruct v; simpl; try discriminate; eauto. Qed.

Lemma same_table_scales fu tu :
  same_table fu tu ->
  exists table x y, (table = VOL_ML \/ table = MASS_G) /\
    scale table fu = Some x /\ scale table tu = Some y.
Proof.
  unfold scale.
  intros [[[sf Hf] [st Ht]] | [[sf Hf] [st Ht]]].
  - destruct (good_scale_some _ (VOL_ML_scales _ _ Hf)) as [x Hx].
    destruct (good_scale_some _ (VOL_ML_scales _ _ Ht)) as [y Hy].
    exists VOL_ML, x, y. rewrite Hf, Ht. auto.
  - destruct (good_scale_some _ (MASS_G_scales _ _ Hf)) as [x Hx].
    destruct (good_scale_some _ (MASS_G_scales _ _ Ht)) as [y Hy].
    exists MASS_G, x, y. rewrite Hf, Ht. auto.
Qed.

Lemma same_table_dec fu tu : same_table fu tu \/ ~ same_table fu tu.
Proof.
  unfold same_table.
  destruct (VOL_ML !! fu) eqn:E1, (VOL_ML !! tu) eqn:E2,
           (MASS_G !! fu) eqn:E3, (MASS_G !! tu) eqn:E4;
    try (left; left; split; eexists; reflexivity);
    try (left; right; split; eexists; reflexivity);
    right; intros [[[? ?] [? ?]] | [[? ?] [? ?]]]; discriminate.
Qed.

(** The converter called on a float and two strings either returns a float
    or raises the conversion error. *)
Lemma convert_outcome (v : float) f t :
  (same_table (str_lower f) (str_lower t) /\
   exists x, _convert (VFloat v) (VStr f) (VStr t) = Ok (VFloat x)) \/
  (~ same_table (str_lower f) (str_lower t) /\
   _convert (VFloat v) (VStr f) (VStr t) = Err (Exn ValueError (cant_convert f t))).
Proof.
  destruct (same_table_dec (str_lower f) (str_lower t)) as [Hs | Hn].
  - left. split; [exact Hs|].
    destruct (same_table_scales _ _ Hs) as (table & x & y & Ht & Sf & St).
    eexists. eapply convert_in_table; eassumption.
  - right. split; [exact Hn|]. apply convert_not_same_table. exact Hn.
Qed.

End Converter.

(** ** The shorthand recogniser *)

Section Shorthand.
Context {H : Host}.

Lemma digit_not_point c : is_digit c = true -> N.eqb c 46 = false.
Proof.
  intros Hd. destruct (N.eqb c 46) eqn:E; [|reflexivity].
  apply N.eqb_eq in E as ->. vm_compute in Hd. discriminate.
Qed.

Lemma split_point_digits d :
  forallb is_digit d = true -> split_point d = (d, None).
Proof.
  induction d as [|c d IH]; simpl; intros Hd; [reflexivity|].
  apply andb_prop in Hd as [Hc Hd]. rewrite (digit_not_point c Hc), (IH Hd). reflexivity.
Qed.

Lemma split_point_fraction ip fp :
  forallb is_digit ip = true -> split_point (ip ++ [46%N] ++ fp) = (ip, Some fp).
Proof.
  induction ip as [|c d IH]; simpl; intros Hd; [reflexivity|].
  apply andb_prop in Hd as [Hc Hd]. rewrite (digit_not_point c Hc).
  simpl in IH. rewrite (IH Hd). reflexivity.
Qed.

Lemma digits_value_some d : forall acc,
  forallb is_digit d = true -> exists n, digits_value acc d = Some n.
Proof.
  induction d as [|c d IH]; simpl; intros acc Hd; [eauto|].
  apply andb_prop in Hd as [Hc Hd]. unfold is_digit in Hc.
  destruct (decimal_value c); [|discriminate]. apply IH. exact Hd.
Qed.

(** [float] reads every text group 1 can hold. *)
Lemma float_of_number n : decimal_number n -> exists f, float_of_str n = Ok f.
Proof.
  unfold float_of_str.
  intros [[Hne Hd] | (ip & fp & -> & [Hne1 Hd1] & [Hne2 Hd2])].
  - rewrite (split_point_digits n Hd). simpl.
    destruct n as [|c n]; [congruence|]. simpl length. simpl Nat.eqb.
    destruct (digits_value_some (c :: n) 0 Hd) as [a ->].
    simpl. eauto.
  - rewrite (split_point_fraction ip fp Hd1).
    destruct ip as [|c ip]; [congruence|]. simpl length. simpl Nat.eqb.
    destruct (digits_value_some (c :: ip) 0 Hd1) as [a ->].
    destruct (digits_value_some fp a Hd2) as [b ->]. eauto.
Qed.

(** On a match the recogniser converts the number it read between the two
    units it read. *)
Lemma try_unit_conversion_match s m :
  re_match CONV_RE s = Some m ->
  exists n u1 u2 v,
    shorthand s n u1 u2 /\ float_of_str n = Ok v /\
    try_unit_conversion s = _convert (VFloat v) (VStr u1) (VStr u2).
Proof.
  intros Hm. unfold try_unit_conversion. rewrite Hm.
  apply re_match_shorthand in Hm as (n & u1 & u2 & G1 & G2 & G3 & Hs).
  pose proof Hs as (w0 & w1 & w2 & c & w3 & w4 & _ & _ & Hn & _).
  destruct (float_of_number n Hn) as [v Hv].
  exists n, u1, u2, v. split; [exact Hs|]. split; [exact Hv|].
  unfold group. rewrite G1, G2, G3. simpl. rewrite Hv. reflexivity.
Qed.

Lemma try_unit_conversion_no_match s :
  re_match CONV_RE s = None -> try_unit_conversion s = Ok VNone.
Proof. intros Hm. unfold try_unit_conversion. rewrite Hm. reflexivity. Qed.

Lemma safe_eval_arithmetic s :
  try_unit_conversion s = Ok VNone ->
  safe_eval s = (let! tree := ast_parse s in let! r := _eval tree in Ok (tidy r)).
Proof. intros E. unfold safe_eval. rewrite E. reflexivity. Qed.

Lemma safe_eval_converted s (x : float) :
  try_unit_conversion s = Ok (VFloat x) -> safe_eval s = Ok (VFloat x).
Proof. intros E. unfold safe_eval. rewrite E. reflexivity. Qed.

Lemma safe_eval_raised s e :
  try_unit_conversion s = Err e -> safe_eval s = Err e.
Proof. intros E. unfold safe_eval. rewrite E. reflexivity. Qed.

End Shorthand.

(** ** Runs of characters of one class *)

Lemma run_unique (p : N -> bool) a : forall a' b b',
  forallb p a = true -> forallb p a' = true ->
  starts_outside p b -> starts_outside p b' ->
  a ++ b = a' ++ b' -> a = a' /\ b = b'.
Proof.
  induction a as [|c a IH]; intros [|c' a'] b b' Ha Ha' Hb Hb' E; simpl in *.
  - auto.
  - subst b. simpl in Hb. apply andb_prop in Ha' as [Hc _]. congruence.
  - subst b'. simpl in Hb'. apply andb_prop in Ha as [Hc _]. congruence.
  - injection E as -> E. apply andb_prop in Ha as [_ Ha]. apply andb_prop in Ha' as [_ Ha'].
    destruct (IH a' b b' Ha Ha' Hb Hb' E) as [-> ->]. auto.
Qed.

Lemma run_prefix (p : N -> bool) t' : forall t b b',
  forallb p t = true -> forallb p t' = true -> starts_outside p b ->
  t ++ b = t' ++ b' -> exists x, t = t' ++ x /\ b' = x ++ b.
Proof.
  induction t' as [|c t' IH]; intros t b b' Ht Ht' Hb E; simpl in *.
  - exists t. auto.
  - apply andb_prop in Ht' as [Hc Ht'].
    destruct t as [|d t]; simpl in *.
    + subst b. simpl in Hb. congruence.
    + injection E as -> E. apply andb_prop in Ht as [_ Ht].
      destruct (IH t b b' Ht Ht' Hb E) as (x & -> & ->). exists x. auto.
Qed.

Lemma space_not_unit_char c : is_space c = true -> is_unit_char c = false.
Proof.
  unfold is_space, is_unit_char, in_range. intros Hs.
  apply not_true_is_false. intros Hu.
  repeat rewrite ?orb_true_iff, ?andb_true_iff, ?N.leb_le, ?N.eqb_eq in Hs.
  repeat rewrite ?orb_true_iff, ?andb_true_iff, ?N.leb_le, ?N.eqb_eq in Hu.
  lia.
Qed.

Lemma unit_char_not_space c : is_unit_char c = true -> is_space c = false.
Proof.
  intros Hu. destruct (is_space c) eqn:E; [|reflexivity].
  apply space_not_unit_char in E. congruence.
Qed.

Lemma blank_unit_chars l :
  forallb is_space l = true -> forallb is_unit_char l = true -> l = [].
Proof.
  destruct l as [|c l]; [reflexivity|]. simpl. intros Hs Hu.
  apply andb_prop in Hs as [Hs _]. apply andb_prop in Hu as [Hu _].
  apply space_not_unit_char in Hs. congruence.
Qed.

Lemma connector_not_blank c r : connector_token c -> starts_outside is_space (c ++ r).
Proof. intros [-> | [-> | [-> | ->]]]; reflexivity. Qed.




Lemma blank_starts_outside w r :
  blank w -> w <> [] -> starts_outside is_unit_char (w ++ r).
Proof.
  destruct w as [|c w]; [congruence|]. unfold blank. simpl. intros Hw _.
  apply andb_prop in Hw as [Hc _]. apply space_not_unit_char. exact Hc.
Qed.

Lemma unit_name_starts_outside t r : unit_name t -> starts_outside is_space (t ++ r).
Proof.
  intros [Hne Ht]. destruct t as [|c t]; [congruence|]. simpl in *.
  apply andb_prop in Ht as [Hc _]. apply unit_char_not_space. exact Hc.
Qed.

Section Digits.
Context {H : Host}.

Lemma digit_not_unit_char c : is_digit c = true -> is_unit_char c = false.
Proof.
  unfold is_digit, decimal_value, is_unit_char, in_range. intros Hd.
  apply not_true_is_false. intros Hu.
  repeat rewrite ?orb_true_iff, ?andb_true_iff, ?N.leb_le, ?N.eqb_eq in Hu.
  destruct (N.ltb c 128) eqn:E.
  - destruct (N.leb 48 c && N.leb c 57)%bool eqn:E2; [|discriminate].
    rewrite andb_true_iff, !N.leb_le in E2. lia.
  - apply N.ltb_ge in E. lia.
Qed.

Lemma digits_no_unit_char d :
  forallb is_digit d = true -> forallb (fun c => negb (is_unit_char c)) d = true.
Proof.
  induction d as [|c d IH]; simpl; [reflexivity|]. intros Hd.
  apply andb_prop in Hd as [Hc Hd]. rewrite (digit_not_unit_char c Hc), (IH Hd). reflexivity.
Qed.

Lemma number_no_unit_char n :
  decimal_number n -> forallb (fun c => negb (is_unit_char c)) n = true.
Proof.
  intros [[_ Hd] | (ip & fp & -> & [_ Hd1] & [_ Hd2])].
  - apply digits_no_unit_char. exact Hd.
  - rewrite !forallb_app, (digits_no_unit_char ip Hd1), (digits_no_unit_char fp Hd2).
    reflexivity.
Qed.

End Digits.

Lemma blank_no_unit_char w :
  blank w -> forallb (fun c => negb (is_unit_char c)) w = true.
Proof.
  unfold blank. induction w as [|c w IH]; simpl; [reflexivity|]. intros Hw.
  apply andb_prop in Hw as [Hc Hw]. rewrite (space_not_unit_char c Hc), (IH Hw). reflexivity.
Qed.

Lemma unit_name_starts_inside t r :
  unit_name t -> starts_outside (fun c => negb (is_unit_char c)) (t ++ r).
Proof.
  intros [Hne Ht]. destruct t as [|c t]; [congruence|]. simpl in *.
  apply andb_prop in Ht as [Hc _]. rewrite Hc. reflexivity.
Qed.

Section UpperConnector.
Context {H : Host}.

Lemma prefix_no_unit_char w n w' :
  blank w -> decimal_number n -> blank w' ->
  forallb (fun c => negb (is_unit_char c)) (w ++ n ++ w') = true.
Proof.
  intros Hw Hn Hw'. rewrite !forallb_app.
  rewrite (blank_no_unit_char w Hw), (number_no_unit_char n Hn), (blank_no_unit_char w' Hw').
  reflexivity.
Qed.


End UpperConnector.

(** ** Values of numeric expressions *)

Section Numbers.
Context {H : Host}.

Lemma is_number_real v : is_number v = true -> exists x, as_real v = Some x.
Proof. destruct v; simpl; try discriminate; eauto. Qed.

Lemma int_binop_number f a b r :
  f = op_add \/ f = op_sub \/ f = op_mul \/ f = op_truediv \/ f = op_mod ->
  int_binop f a b = Ok r -> is_number r = true.
Proof.
  intros [-> | [-> | [-> | [-> | ->]]]]; unfold int_binop; intros E.
  - injection E as <-. reflexivity.
  - injection E as <-. reflexivity.
  - injection E as <-. reflexivity.
  - destruct (b =? 0); [discriminate|].
    destruct (is_inf (Zdiv2F a b)); [discriminate|]. injection E as <-. reflexivity.
  - destruct (b =? 0); [discriminate|]. injection E as <-. reflexivity.
Qed.

Lemma float_binop_number f x y r :
  f = op_add \/ f = op_sub \/ f = op_mul \/ f = op_truediv \/ f = op_mod ->
  float_binop f x y = Ok r -> is_number r = true.
Proof.
  intros [-> | [-> | [-> | [-> | ->]]]]; unfold float_binop; intros E.
  - injection E as <-. reflexivity.
  - injection E as <-. reflexivity.
  - injection E as <-. reflexivity.
  - destruct (is_zero y); [discriminate|]. injection E as <-. reflexivity.
  - destruct (is_zero y); [discriminate|].
    destruct (is_zero (fmod x y)); [injection E as <-; reflexivity|].
    destruct (Bool.eqb _ _); injection E as <-; reflexivity.
Qed.

Lemma bind_ok {A B} (m : result A) (k : A -> result B) r :
  bind m k = Ok r -> exists a, m = Ok a /\ k a = Ok r.
Proof. destruct m as [a|e]; simpl; [eauto | discriminate]. Qed.

Lemma py_binop_number f a b r :
  f = op_add \/ f = op_sub \/ f = op_mul \/ f = op_truediv \/ f = op_mod ->
  is_number a = true -> as_real b <> None ->
  py_binop f a b = Ok r -> is_number r = true.
Proof.
  intros Hf Ha Hb. apply is_number_real in Ha as [x Hx].
  unfold py_binop. rewrite Hx. destruct (as_real b) as [y|]; [|congruence].
  unfold real_binop. destruct x as [x|x], y as [y|y];
    try (apply int_binop_number; exact Hf);
    intros E; apply bind_ok in E as (x' & _ & E); apply bind_ok in E as (y' & _ & E);
    eapply float_binop_number; eassumption.
Qed.

Lemma py_neg_number a r : is_number a = true -> py_neg a = Ok r -> is_number r = true.
Proof. destruct a; simpl; try discriminate; intros _ E; injection E as <-; reflexivity. Qed.

Lemma good_scale_real v : good_scale v = true -> is_number v = true.
Proof. unfold good_scale. destruct v; simpl; try discriminate; reflexivity. Qed.

Lemma table_getitem_number table k sf :
  (table = VOL_ML \/ table = MASS_G) ->
  dict_getitem table k = Ok sf -> is_number sf = true.
Proof.
  intros Ht. unfold dict_getitem. destruct k; try discriminate.
  destruct (table !! s) as [v|] eqn:E; [|discriminate]. intros Ev. injection Ev as <-.
  apply good_scale_real. destruct Ht as [-> | ->]; [eapply VOL_ML_scales | eapply MASS_G_scales];
    exact E.
Qed.

Lemma scaled_number table val fu tu r :
  (table = VOL_ML \/ table = MASS_G) -> is_number val = true ->
  (let! sf := dict_getitem table fu in
   let! x := py_binop op_mul val sf in
   let! st := dict_getitem table tu in
   py_binop op_truediv x st) = Ok r ->
  is_number r = true.
Proof.
  intros Ht Hv E.
  apply bind_ok in E as (sf & Esf & E). apply bind_ok in E as (x & Ex & E).
  apply bind_ok in E as (st & Est & E).
  pose proof (table_getitem_number _ _ _ Ht Esf) as Nsf.
  pose proof (table_getitem_number _ _ _ Ht Est) as Nst.
  assert (is_number x = true) as Nx.
  { eapply py_binop_number; [| exact Hv | | exact Ex]; [tauto|].
    apply is_number_real in Nsf as [? ->]. discriminate. }
  eapply py_binop_number; [| exact Nx | | exact E]; [tauto|].
  apply is_number_real in Nst as [? ->]. discriminate.
Qed.

(** [convert] of a number is a number. *)
Lemma convert_number val from_u to_u r :
  is_number val = true -> _convert val from_u to_u = Ok r -> is_number r = true.
Proof.
  intros Hv E. unfold _convert in E.
  apply bind_ok in E as (fu & _ & E). apply bind_ok in E as (tu & _ & E).
  destruct (dict_in fu VOL_ML && dict_in tu VOL_ML).
  { eapply (scaled_number VOL_ML); [left; reflexivity | exact Hv | exact E]. }
  destruct (dict_in fu MASS_G && dict_in tu MASS_G).
  { eapply (scaled_number MASS_G); [right; reflexivity | exact Hv | exact E]. }
  apply bind_ok in E as (a & _ & E). apply bind_ok in E as (b & _ & E). discriminate.
Qed.

Lemma tidy_number v : is_number v = true -> is_number (tidy v) = true.
Proof.
  destruct v; simpl; try discriminate; intros _; [reflexivity|].
  destruct (float_integral f); reflexivity.
Qed.

Lemma eval_call func args kws :
  _eval (Call func args kws)
  = (let! f := _eval func in let! vs := mapM _eval args in call_value f vs).
Proof.
  simpl. destruct (_eval func) as [f|e]; [|reflexivity]. simpl.
  f_equal. induction args as [|a args IH]; simpl; [reflexivity|].
  destruct (_eval a); simpl; [|reflexivity]. rewrite IH. reflexivity.
Qed.

Lemma eval_numeric e : numeric_expr e -> forall r, _eval e = Ok r -> is_number r = true.
Proof.
  induction 1 as [ z | f | id f Hid | e He IH | l op r Hop Hl IHl Hr IHr
                 | id f args kws Hid | val from_u to_u kws Hval IH ]; intros res E.
  - injection E as <-. reflexivity.
  - injection E as <-. reflexivity.
  - cbn [_eval] in E. rewrite Hid in E. injection E as <-. reflexivity.
  - cbn [_eval OPS_getitem OPS bind call_op] in E.
    apply bind_ok in E as (a & Ea & E). eapply py_neg_number; [|exact E].
    eapply IH. exact Ea.
  - assert (exists f, OPS_getitem (BinCls op) = Ok f /\
              (f = op_add \/ f = op_sub \/ f = op_mul \/ f = op_truediv \/ f = op_mod))
      as (f & Ef & Hf).
    { destruct Hop as [-> | [-> | [-> | [-> | ->]]]]; eexists; (split; [reflexivity|]); tauto. }
    cbn [_eval] in E. rewrite Ef in E. cbn [bind] in E.
    apply bind_ok in E as (a & Ea & E). apply bind_ok in E as (b & Eb & E).
    cbn [call_op] in E. destruct f; try (exfalso; clear - Hf; intuition discriminate);
      (eapply py_binop_number; [exact Hf | eapply IHl; exact Ea | | exact E];
       apply IHr, is_number_real in Eb as [? ->]; discriminate).
  - rewrite eval_call in E. cbn [_eval] in E. rewrite Hid in E. cbn [bind] in E.
    apply bind_ok in E as (vs & _ & E). cbn [call_value] in E.
    apply bind_ok in E as (x & _ & E). injection E as <-. reflexivity.
  - rewrite eval_call in E. cbn [_eval] in E.
    change (MATH_FUNCS !! u "convert") with (Some (VFunc ConvertFn)) in E. cbn [bind] in E.
    apply bind_ok in E as (vs & Evs & E). cbn [mapM] in Evs.
    apply bind_ok in Evs as (a & Ea & Evs). apply bind_ok in Evs as (bs & Ebs & Evs).
    apply bind_ok in Ebs as (b & Eb & Ebs). apply bind_ok in Ebs as (cs & Ecs & Ebs).
    apply bind_ok in Ecs as (c & Ec & Ecs). cbn [bind] in Ecs.
    injection Ecs as <-. injection Ebs as <-. injection Evs as <-.
    cbn [call_value] in E. eapply convert_number; [|exact E]. eapply IH. exact Ea.
Qed.

(** What the recogniser can return: [None] or a float. *)
Lemma try_unit_conversion_value s w :
  try_unit_conversion s = Ok w -> w = VNone \/ exists x, w = VFloat x.
Proof.
  destruct (re_match CONV_RE s) as [m|] eqn:E.
  - destruct (try_unit_conversion_match s m E) as (n & u1 & u2 & v & _ & _ & ->).
    destruct (convert_outcome v u1 u2) as [[_ [x ->]] | [_ ->]]; [|discriminate].
    intros Ew. injection Ew as <-. eauto.
  - rewrite (try_unit_conversion_no_match s E). intros Ew. injection Ew as <-. auto.
Qed.


(** For an integer value the converter does the same arithmetic; the only
    other way it can fail is the overflow of an integer too large for a
    float. *)
Lemma convert_integer (z : Z) f t :
  same_table (str_lower f) (str_lower t) ->
  (exists x, _convert (VInt z) (VStr f) (VStr t) = Ok (VFloat x)) \/
  (exists e, _convert (VInt z) (VStr f) (VStr t) = Err e /\ exc_type e = OverflowError).
Proof.
  intros Hs.
  assert (forall table, (table = VOL_ML \/ table = MASS_G) ->
            forall sf st, table !! str_lower f = Some sf -> table !! str_lower t = Some st ->
            (exists x, (let! a := py_binop op_mul (VInt z) sf in py_binop op_truediv a st)
                       = Ok (VFloat x)) \/
            (exists e, (let! a := py_binop op_mul (VInt z) sf in py_binop op_truediv a st)
                       = Err e /\ exc_type e = OverflowError)) as Harith.
  { intros table Ht sf st Ef Et.
    assert (good_scale sf = true /\ good_scale st = true) as [Gf Gt].
    { destruct Ht as [-> | ->]; split;
        first [eapply VOL_ML_scales; eassumption | eapply MASS_G_scales; eassumption]. }
    unfold good_scale in Gf, Gt.
    destruct sf as [k| x | | | | | | | ]; try discriminate;
      destruct st as [j| y | | | | | | | ]; try discriminate;
      cbn [as_real scale_of] in Gf, Gt;
      apply andb_prop in Gf as [If Zf]; apply andb_prop in Gt as [It Zt];
      apply negb_true_iff in If, Zf, It, Zt;
      unfold py_binop; cbn [as_real real_binop int_binop to_double bind float_binop];
      unfold int_to_float; rewrite ?If, ?It; cbn [bind].
    - assert ((j =? 0) = false) as ->.
      { destruct (j =? 0) eqn:Ej; [|reflexivity]. apply Z.eqb_eq in Ej as ->.
        rewrite Z2F_zero in Zt. discriminate. }
      destruct (is_inf (Zdiv2F (z * k) j)); [right | left]; eexists; eauto.
    - destruct (is_inf (Z2F (z * k))); cbn [bind]; [right; eexists; eauto|].
      cbn [float_binop]. rewrite Zt. left. eexists. reflexivity.
    - destruct (is_inf (Z2F z)); cbn [bind]; [right; eexists; eauto|].
      cbn [float_binop as_real real_binop to_double bind]. unfold int_to_float.
      rewrite It. cbn [bind float_binop]. rewrite Zt. left. eexists. reflexivity.
    - destruct (is_inf (Z2F z)); cbn [bind]; [right; eexists; eauto|].
      cbn [float_binop as_real real_binop to_double bind]. rewrite Zt.
      left. eexists. reflexivity. }
  unfold _convert. cbn [bind lower_method].
  destruct Hs as [[[sf Ef] [st Et]] | [[sf Ef] [st Et]]].
  - assert (dict_in (VStr (str_lower f)) VOL_ML = true) as -> by (apply dict_in_str; eauto).
    assert (dict_in (VStr (str_lower t)) VOL_ML = true) as -> by (apply dict_in_str; eauto).
    cbn [andb]. unfold dict_getitem. rewrite Ef. cbn [bind].
    specialize (Harith VOL_ML (or_introl eq_refl) sf st Ef Et).
    destruct (py_binop op_mul (VInt z) sf) as [a|e]; cbn [bind] in *;
      [rewrite Et; cbn [bind]|]; exact Harith.
  - assert (dict_in (VStr (str_lower f)) VOL_ML = false) as ->.
    { apply not_true_is_false. intros Hin. apply dict_in_str in Hin.
      eapply not_both_tables; eauto. }
    assert (dict_in (VStr (str_lower f)) MASS_G = true) as -> by (apply dict_in_str; eauto).
    assert (dict_in (VStr (str_lower t)) MASS_G = true) as -> by (apply dict_in_str; eauto).
    cbn [andb]. unfold dict_getitem. rewrite Ef. cbn [bind].
    specialize (Harith MASS_G (or_intror eq_refl) sf st Ef Et).
    destruct (py_binop op_mul (VInt z) sf) as [a|e]; cbn [bind] in *;
      [rewrite Et; cbn [bind]|]; exact Harith.
Qed.

End Numbers.

(** ** Quotients of small integers *)



(** * The claims *)

Section Claims.
Context {H : Host}.

(** C1 (as amended). Every node of a class the evaluator has no branch for
    fails with [ValueError("Unsupported node: <dump>")] and produces no
    value: attribute access, indexing, comparisons and boolean operators
    among them. A binary or unary operator outside [OPS] (unary plus, [not],
    [~], floor division, the bitwise and shift operators, [@]) produces no
    value either, but what is raised is the [KeyError] of the table lookup,
    before any operand is evaluated. A literal of any kind is returned as
    it is. *)
Theorem C1_unsupported_nodes_rejected :
  (forall node, has_branch node = false ->
     _eval node = Err (Exn ValueError (u "Unsupported node: " ++ ast_dump node)))
  /\ (forall v attr,
        _eval (Attribute v attr)
        = Err (Exn ValueError (u "Unsupported node: " ++ ast_dump (Attribute v attr))))
  /\ (forall v slice,
        _eval (Subscript v slice)
        = Err (Exn ValueError (u "Unsupported node: " ++ ast_dump (Subscript v slice))))
  /\ (forall l ops cs,
        _eval (Compare l ops cs)
        = Err (Exn ValueError (u "Unsupported node: " ++ ast_dump (Compare l ops cs))))
  /\ (forall op vs,
        _eval (BoolOp op vs)
        = Err (Exn ValueError (u "Unsupported node: " ++ ast_dump (BoolOp op vs))))
  /\ (forall l op r, OPS (BinCls op) = None ->
        _eval (BinOp l op r)
        = Err (Exn KeyError (u "<class 'ast." ++ op_class_name (BinCls op) ++ u "'>")))
  /\ (forall op e, OPS (UnCls op) = None ->
        _eval (UnaryOp op e)
        = Err (Exn KeyError (u "<class 'ast." ++ op_class_name (UnCls op) ++ u "'>")))
  /\ (forall e, _eval (UnaryOp UAdd e) = Err (Exn KeyError (u "<class 'ast.UAdd'>")))
  /\ (forall v, _eval (Constant v) = Ok v).
Proof.
  repeat split.
  - intros node Hb. destruct node; try discriminate; reflexivity.
  - intros l op r Hop. cbn [_eval]. unfold OPS_getitem. rewrite Hop. reflexivity.
  - intros op e Hop. cbn [_eval]. unfold OPS_getitem. rewrite Hop. reflexivity.
Qed.

(** C2 (as amended). On success [calculate] returns either the float of
    the shorthand conversion, or the value of the evaluator with integral
    floats turned into integers. The kind of that value is not checked; it
    is a number whenever the tree is a numeric expression. *)
Theorem C2_result_of_calculate (s : pystr) (v : value) :
  safe_eval s = Ok v ->
  (exists x, try_unit_conversion s = Ok (VFloat x) /\ v = VFloat x)
  \/ (exists tree r,
        try_unit_conversion s = Ok VNone /\ ast_parse s = Ok tree /\
        _eval tree = Ok r /\ v = tidy r /\
        (numeric_expr tree -> is_number v = true)).
Proof.
  unfold safe_eval. intros E. apply bind_ok in E as (w & Ew & E).
  destruct (try_unit_conversion_value s w Ew) as [-> | [x ->]].
  - right. apply bind_ok in E as (tree & Et & E). apply bind_ok in E as (r & Er & E).
    injection E as <-. exists tree, r. repeat split; try assumption.
    intros Hn. apply tidy_number. eapply eval_numeric; eassumption.
  - left. injection E as <-. eauto.
Qed.

(** C3 (as amended). A name that is not in the symbol table raises
    [NameError] with the name. [os.system('x')] is refused earlier: the
    callee is an attribute access, which is an unsupported node, so the
    error is the [ValueError] of unsupported nodes and the name [os] is
    never looked up. *)
Theorem C3_unknown_names (id : pystr) :
  (MATH_FUNCS !! id = None -> _eval (Name id) = Err (Exn NameError id))
  /\ (forall s, try_unit_conversion s = Ok VNone -> ast_parse s = Ok (Name id) ->
        MATH_FUNCS !! id = None -> safe_eval s = Err (Exn NameError id))
  /\ (forall args kws,
        ast_parse (u "os.system('x')")
          = Ok (Call (Attribute (Name (u "os")) (u "system")) args kws) ->
        safe_eval (u "os.system('x')")
        = Err (Exn ValueError
                 (u "Unsupported node: "
                    ++ ast_dump (Attribute (Name (u "os")) (u "system"))))).
Proof.
  split; [|split].
  - intros Hid. cbn [_eval]. rewrite Hid. reflexivity.
  - intros s Hs Hp Hid. rewrite (safe_eval_arithmetic s Hs), Hp. cbn [bind _eval].
    rewrite Hid. reflexivity.
  - intros args kws Hp.
    assert (try_unit_conversion (u "os.system('x')") = Ok VNone) as Hs
      by (vm_compute; reflexivity).
    rewrite (safe_eval_arithmetic _ Hs), Hp. reflexivity.
Qed.

(** C4. The shorthand path returns the converted float as it is, through
    the early return: "2 l to ml" gives the float 2000.0. The tidying step
    that would have made it the integer 2000 is applied on the arithmetic
    path only, where [convert(2, 'l', 'ml')] does give 2000. *)
Theorem C4_shorthand_result_not_tidied :
  (forall s x, try_unit_conversion s = Ok (VFloat x) -> safe_eval s = Ok (VFloat x))
  /\ safe_eval (u "2 l to ml") = Ok (VFloat 2000)
  /\ tidy (VFloat 2000) = VInt 2000
  /\ (ast_parse (u "convert(2, 'l', 'ml')")
        = Ok (Call (Name (u "convert"))
                [Constant (VInt 2); Constant (VStr (u "l")); Constant (VStr (u "ml"))] []) ->
      safe_eval (u "convert(2, 'l', 'ml')") = Ok (VInt 2000)).
Proof.
  split; [exact safe_eval_converted|].
  split; [vm_compute; reflexivity|]. split; [vm_compute; reflexivity|].
  intros Hp.
  assert (try_unit_conversion (u "convert(2, 'l', 'ml')") = Ok VNone) as Hs
    by (vm_compute; reflexivity).
  rewrite (safe_eval_arithmetic _ Hs), Hp. vm_compute. reflexivity.
Qed.

(** C5 (as amended). Called on a float and two unit strings, the converter
    succeeds exactly when both units, lowercased, are in the same one of
    the two tables, and then returns [value * scale(from) / scale(to)] with
    that table's factors, the same for every spelling of the units that
    lowercases to the same names; otherwise, whatever the value, it raises
    the conversion error, in particular for a volume unit and a mass unit.
    Called on an integer with both units in one table, it multiplies and
    divides by that table's entries in the arithmetic of Python and returns
    a float, or raises [OverflowError] when the integer is too large for
    one. *)
Theorem C5_convert_same_table (v : float) (f t : pystr) :
  ((exists r, _convert (VFloat v) (VStr f) (VStr t) = Ok r)
     <-> same_table (str_lower f) (str_lower t))
  /\ (forall table x y,
        (table = VOL_ML \/ table = MASS_G) ->
        scale table (str_lower f) = Some x -> scale table (str_lower t) = Some y ->
        _convert (VFloat v) (VStr f) (VStr t) = Ok (VFloat (v * x / y)))
  /\ (forall f' t',
        str_lower f' = str_lower f -> str_lower t' = str_lower t ->
        same_table (str_lower f) (str_lower t) ->
        _convert (VFloat v) (VStr f') (VStr t') = _convert (VFloat v) (VStr f) (VStr t))
  /\ (forall val, ~ same_table (str_lower f) (str_lower t) ->
        _convert val (VStr f) (VStr t) = Err (Exn ValueError (cant_convert f t)))
  /\ (forall val,
        is_Some (VOL_ML !! str_lower f) -> is_Some (MASS_G !! str_lower t) ->
        _convert val (VStr f) (VStr t) = Err (Exn ValueError (cant_convert f t)))
  /\ (forall val,
        is_Some (MASS_G !! str_lower f) -> is_Some (VOL_ML !! str_lower t) ->
        _convert val (VStr f) (VStr t) = Err (Exn ValueError (cant_convert f t)))
  /\ (forall z : Z, same_table (str_lower f) (str_lower t) ->
        (exists x, _convert (VInt z) (VStr f) (VStr t) = Ok (VFloat x)) \/
        (exists e, _convert (VInt z) (VStr f) (VStr t) = Err e /\
                   exc_type e = OverflowError))
  /\ (forall (z : Z) table sf st,
        (table = VOL_ML \/ table = MASS_G) ->
        table !! str_lower f = Some sf -> table !! str_lower t = Some st ->
        _convert (VInt z) (VStr f) (VStr t)
        = (let! a := py_binop op_mul (VInt z) sf in py_binop op_truediv a st)).
Proof.
  split; [|split; [|split; [|split; [|split; [|split; [|split]]]]]].
  - split.
    + intros [r Er]. destruct (convert_outcome v f t) as [[Hs _] | [_ Hn]]; [exact Hs|].
      rewrite Hn in Er. discriminate.
    + intros Hs. destruct (same_table_scales _ _ Hs) as (table & x & y & Ht & Sf & St).
      eexists. eapply convert_in_table; eassumption.
  - intros table x y. apply convert_in_table.
  - intros f' t' Ef Et Hs.
    destruct (same_table_scales _ _ Hs) as (table & x & y & Ht & Sf & St).
    rewrite (convert_in_table table v f t x y Ht Sf St).
    apply (convert_in_table table); [exact Ht | rewrite Ef; exact Sf | rewrite Et; exact St].
  - intros val. apply convert_not_same_table.
  - intros val Hf Ht. apply convert_not_same_table.
    intros [[_ Ht'] | [Hf' _]]; eapply not_both_tables; eassumption.
  - intros val Hf Ht. apply convert_not_same_table.
    intros [[Hf' _] | [_ Ht']]; eapply not_both_tables; eassumption.
  - intros z. apply convert_integer.
  - intros z table sf st. apply convert_arith.
Qed.

(** C6. The recogniser returns [None] exactly when the text does not have
    the shape of the shorthand, and [calculate] then takes the arithmetic
    path. A text that has the shape is read as a number and two units and
    never falls through to the parser: when the two units, lowercased, are
    in one table, [calculate] returns the number times the factor of the
    first over the factor of the second, and when they are not it fails
    with the conversion error for these units. *)
Theorem C6_shorthand_recogniser (s : pystr) :
  (try_unit_conversion s = Ok VNone <-> ~ exists n u1 u2, shorthand s n u1 u2)
  /\ (try_unit_conversion s = Ok VNone -> safe_eval s = arithmetic_path s)
  /\ ((exists n u1 u2, shorthand s n u1 u2) ->
      exists n u1 u2 v,
        shorthand s n u1 u2 /\ float_of_str n = Ok v /\
        (same_table (str_lower u1) (str_lower u2) ->
           exists table x y,
             (table = VOL_ML \/ table = MASS_G) /\
             scale table (str_lower u1) = Some x /\ scale table (str_lower u2) = Some y /\
             safe_eval s = Ok (VFloat (v * x / y))) /\
        (~ same_table (str_lower u1) (str_lower u2) ->
           safe_eval s = Err (Exn ValueError (cant_convert u1 u2)))).
Proof.
  destruct (re_match CONV_RE s) as [m|] eqn:E.
  - destruct (try_unit_conversion_match s m E) as (n & u1 & u2 & v & Hs & Hv & Et).
    assert ((exists x, try_unit_conversion s = Ok (VFloat x)) \/
            (exists e, try_unit_conversion s = Err e)) as Ho.
    { rewrite Et. destruct (convert_outcome v u1 u2) as [[_ [x Hx]] | [_ Hn]]; eauto. }
    split; [|split].
    + split.
      * intros En. destruct Ho as [[x Ex] | [e Ex]]; rewrite Ex in En; discriminate.
      * intros Hn. exfalso. apply Hn. eauto.
    + intros En. destruct Ho as [[x Ex] | [e Ex]]; rewrite Ex in En; discriminate.
    + intros _. exists n, u1, u2, v. split; [exact Hs|]. split; [exact Hv|]. split.
      * intros Hsame.
        destruct (same_table_scales _ _ Hsame) as (table & x & y & Ht & Sf & St).
        exists table, x, y. repeat (split; [assumption|]).
        apply safe_eval_converted. rewrite Et.
        apply (convert_in_table table); assumption.
      * intros Hn. apply safe_eval_raised. rewrite Et.
        apply convert_not_same_table. exact Hn.
  - pose proof (try_unit_conversion_no_match s E) as En.
    split; [|split].
    + split; [|intros _; exact En].
      intros _ (n & u1 & u2 & Hs). apply shorthand_re_match in Hs. congruence.
    + intros _. apply safe_eval_arithmetic. exact En.
    + intros (n & u1 & u2 & Hs). apply shorthand_re_match in Hs. congruence.
Qed.



(** C8 (as amended). The handler returns exactly one of two shapes and
    raises nothing: when [calculate] returns a value and [str] of it works,
    the value is written to the state slot as text and returned as
    [{"result": value}]; every exception of [calculate], or of [str], is
    caught, written as ["error: " + str(err)] and returned as
    [{"error": str(err)}]. The older handler of the root module does the
    same. The value is what [calculate] returned, whatever its kind. *)
Theorem C8_handler_shapes (call : ServiceCall) (st : states) :
  ((exists v txt,
      safe_eval (expression call) = Ok v /\ py_str v = Ok txt /\
      handle_calculate call st = (async_set calculator_result txt st, Result v))
   \/
   (exists e,
      (safe_eval (expression call) = Err e \/
       exists v, safe_eval (expression call) = Ok v /\ py_str v = Err e) /\
      handle_calculate call st
      = (async_set calculator_result (u "error: " ++ exc_str e) st, Error (exc_str e))))
  /\
  ((exists v txt,
      Root.safe_eval (expression call) = Ok v /\ py_str v = Ok txt /\
      Root.handle_calculate call st = (async_set calculator_result txt st, Result v))
   \/
   (exists e,
      (Root.safe_eval (expression call) = Err e \/
       exists v, Root.safe_eval (expression call) = Ok v /\ py_str v = Err e) /\
      Root.handle_calculate call st
      = (async_set calculator_result (u "error: " ++ exc_str e) st, Error (exc_str e)))).
Proof.
  split.
  - unfold handle_calculate, calculate_and_str.
    destruct (safe_eval (expression call)) as [v|e]; cbn [bind].
    + destruct (py_str v) as [txt|e] eqn:Es; cbn [bind].
      * left. exists v, txt. auto.
      * right. exists e. split; [right; eauto | reflexivity].
    + right. exists e. split; [left; reflexivity | reflexivity].
  - unfold Root.handle_calculate, Root.calculate_and_str.
    destruct (Root.safe_eval (expression call)) as [v|e]; cbn [bind].
    + destruct (py_str v) as [txt|e] eqn:Es; cbn [bind].
      * left. exists v, txt. auto.
      * right. exists e. split; [right; eauto | reflexivity].
    + right. exists e. split; [left; reflexivity | reflexivity].
Qed.

(** C9. A call evaluates the callee and the positional arguments only: the
    keywords of the node are neither passed nor rejected nor evaluated, so
    a call with keywords has the value of the same call without them:
    [log(100, base=10)] is [math.log(100)], and
    [convert(1, 'kg', 'g', base=nope)] succeeds with 1000.0 although [nope]
    is no name of the symbol table. *)
Theorem C9_keywords_discarded (func : expr) (args : list expr)
    (kws : list (option pystr * expr)) :
  _eval (Call func args kws) = _eval (Call func args [])
  /\ _eval (Call func args kws)
     = (let! f := _eval func in let! vs := mapM _eval args in call_value f vs)
  /\ _eval (Call (Name (u "log")) [Constant (VInt 100)]
              [(Some (u "base"), Constant (VInt 10))])
     = (let! r := math_call m_log [VInt 100] in Ok (VFloat r))
  /\ _eval (Name (u "nope")) = Err (Exn NameError (u "nope"))
  /\ _eval (Call (Name (u "convert"))
              [Constant (VInt 1); Constant (VStr (u "kg")); Constant (VStr (u "g"))]
              [(Some (u "base"), Name (u "nope"))])
     = Ok (VFloat 1000).
Proof.
  split; [reflexivity|]. split; [apply eval_call|]. split; [reflexivity|].
  split; vm_compute; reflexivity.
Qed.


End Claims.

(** * The claims on concrete inputs *)

(** C1 at an indexing node and at unary plus. *)
Lemma C1_witness :
  @_eval sample_host (Subscript (Name (u "pi")) (Constant (VInt 0)))
    = Err (Exn ValueError (u "Unsupported node: <node>"))
  /\ @_eval sample_host (UnaryOp UAdd (Constant (VInt 1)))
    = Err (Exn KeyError (u "<class 'ast.UAdd'>")).
Proof.
  pose proof (@C1_unsupported_nodes_rejected sample_host) as (Hn & _ & _ & _ & _ & _ & Hu & _).
  split.
  - apply (Hn (Subscript (Name (u "pi")) (Constant (VInt 0)))). reflexivity.
  - apply (Hu UAdd (Constant (VInt 1))). reflexivity.
Defined.

(** The claim C1 fails as stated: a string literal is outside the closed
    set and evaluates to a value, and unary plus is refused with a
    [KeyError], not with the error of unsupported nodes. *)
Lemma C1_counterexample :
  in_closed_set (Constant (VStr (u "abc"))) = false
  /\ (forall H : Host, @_eval H (Constant (VStr (u "abc"))) = Ok (VStr (u "abc")))
  /\ in_closed_set (UnaryOp UAdd (Constant (VInt 1))) = false
  /\ (forall H : Host, exists e,
        @_eval H (UnaryOp UAdd (Constant (VInt 1))) = Err e /\ exc_type e <> ValueError).
Proof.
  split; [reflexivity|]. split; [reflexivity|]. split; [reflexivity|].
  intros H. eexists. split; [reflexivity|]. discriminate.
Qed.

(** C2 at "2 + 2". *)
Lemma C2_witness :
  (exists x, @try_unit_conversion sample_host (u "2 + 2") = Ok (VFloat x) /\ VInt 4 = VFloat x)
  \/ (exists tree r,
        @try_unit_conversion sample_host (u "2 + 2") = Ok VNone /\
        @ast_parse sample_host (u "2 + 2") = Ok tree /\
        @_eval sample_host tree = Ok r /\ VInt 4 = @tidy r /\
        (numeric_expr tree -> is_number (VInt 4) = true)).
Proof.
  apply (@C2_result_of_calculate sample_host (u "2 + 2") (VInt 4)).
  vm_compute. reflexivity.
Defined.

(** The claim C2 fails as stated: the text of a string literal evaluates
    to the string. *)
Lemma C2_counterexample :
  (forall H : Host,
     @ast_parse H (u "'abc'") = Ok (Constant (VStr (u "abc"))) ->
     @safe_eval H (u "'abc'") = Ok (VStr (u "abc")))
  /\ @safe_eval sample_host (u "'abc'") = Ok (VStr (u "abc"))
  /\ is_number (VStr (u "abc")) = false.
Proof.
  split; [|split; [vm_compute; reflexivity | reflexivity]].
  intros H Hp.
  assert (@try_unit_conversion H (u "'abc'") = Ok VNone) as Hs by (vm_compute; reflexivity).
  rewrite (safe_eval_arithmetic _ Hs), Hp. reflexivity.
Qed.

(** C3 at the name [os] and at "os.system('x')". *)
Lemma C3_witness :
  @_eval sample_host (Name (u "os")) = Err (Exn NameError (u "os"))
  /\ @safe_eval sample_host (u "os.system('x')")
     = Err (Exn ValueError
              (u "Unsupported node: "
                 ++ @ast_dump sample_host (Attribute (Name (u "os")) (u "system")))).
Proof.
  pose proof (@C3_unknown_names sample_host (u "os")) as (Hn & _ & Ho).
  split.
  - apply Hn. vm_compute. reflexivity.
  - apply (Ho [Constant (VStr (u "x"))] []). vm_compute. reflexivity.
Defined.

(** The claim C3 fails as stated: "os.system('x')" does not fail with
    [NameError]. *)
Lemma C3_counterexample :
  (forall (H : Host) args kws,
     @ast_parse H (u "os.system('x')")
       = Ok (Call (Attribute (Name (u "os")) (u "system")) args kws) ->
     exists e, @safe_eval H (u "os.system('x')") = Err e /\ exc_type e <> NameError)
  /\ exists e, @safe_eval sample_host (u "os.system('x')") = Err e /\ exc_type e = ValueError.
Proof.
  split.
  - intros H args kws Hp.
    assert (@try_unit_conversion H (u "os.system('x')") = Ok VNone) as Hs
      by (vm_compute; reflexivity).
    rewrite (safe_eval_arithmetic _ Hs), Hp. eexists. split; [reflexivity|]. discriminate.
  - eexists. split; [vm_compute; reflexivity | reflexivity].
Qed.

(** C4 at "2 l to ml" and at "convert(2, 'l', 'ml')". *)
Lemma C4_witness :
  @safe_eval sample_host (u "2 l to ml") = Ok (VFloat 2000)
  /\ @safe_eval sample_host (u "convert(2, 'l', 'ml')") = Ok (VInt 2000).
Proof.
  pose proof (@C4_shorthand_result_not_tidied sample_host) as (Hq & _ & _ & Ha).
  split.
  - apply Hq. vm_compute. reflexivity.
  - apply Ha. vm_compute. reflexivity.
Defined.

(** C5 at [convert(2.0, "CUPS", "ML")], at cups to grams and at
    [convert(2, "l", "ml")]. *)
Lemma C5_witness :
  @_convert sample_host (VFloat 2) (VStr (u "CUPS")) (VStr (u "ML"))
    = Ok (VFloat (2 * 236.588 / Z2F 1))
  /\ @_convert sample_host (VFloat 2) (VStr (u "CUPS")) (VStr (u "ML"))
     = @_convert sample_host (VFloat 2) (VStr (u "cups")) (VStr (u "ml"))
  /\ @_convert sample_host (VFloat 2.5) (VStr (u "cups")) (VStr (u "g"))
     = Err (Exn ValueError (u "Can't convert 'cups' to 'g'"))
  /\ @_convert sample_host (VInt 2) (VStr (u "l")) (VStr (u "ml")) = Ok (VFloat 2000).
Proof.
  pose proof (@C5_convert_same_table sample_host 2 (u "CUPS") (u "ML")) as (_ & Hv & _).
  pose proof (@C5_convert_same_table sample_host 2 (u "cups") (u "ml")) as (_ & _ & Hc & _).
  pose proof (@C5_convert_same_table sample_host 2.5 (u "cups") (u "g"))
    as (_ & _ & _ & _ & Hx & _).
  pose proof (@C5_convert_same_table sample_host 2 (u "l") (u "ml"))
    as (_ & _ & _ & _ & _ & _ & _ & Hi).
  split; [|split; [|split]].
  - apply (Hv VOL_ML); [left; reflexivity | vm_compute; reflexivity | vm_compute; reflexivity].
  - apply Hc; [reflexivity | reflexivity |].
    left. split; [exists (VFloat 236.588) | exists (VInt 1)]; vm_compute; reflexivity.
  - apply Hx; [exists (VFloat 236.588) | exists (VInt 1)]; vm_compute; reflexivity.
  - rewrite (Hi 2 VOL_ML (VInt 1000) (VInt 1));
      [vm_compute; reflexivity | left; reflexivity | vm_compute; reflexivity
       | vm_compute; reflexivity].
Defined.

(** The claim C5 fails as stated, for every value: with both units in the
    volume table, the integer ten to the power 400 is not converted; the
    multiplication by the factor of the cup raises [OverflowError]. *)
Lemma C5_counterexample :
  same_table (@str_lower sample_host (u "cup")) (@str_lower sample_host (u "ml"))
  /\ (exists e,
        @_convert sample_host (VInt (10 ^ 400)) (VStr (u "cup")) (VStr (u "ml")) = Err e
        /\ exc_type e = OverflowError)
  /\ (forall H : Host,
        same_table (@str_lower H (u "cup")) (@str_lower H (u "ml"))
        /\ ~ exists r, @_convert H (VInt (10 ^ 400)) (VStr (u "cup")) (VStr (u "ml")) = Ok r).
Proof.
  assert (forall H : Host,
            same_table (@str_lower H (u "cup")) (@str_lower H (u "ml"))) as Hs.
  { intros H. left. split; [exists (VFloat 236.588) | exists (VInt 1)];
      vm_compute; reflexivity. }
  assert (forall H : Host,
            @_convert H (VInt (10 ^ 400)) (VStr (u "cup")) (VStr (u "ml"))
            = Err (Exn OverflowError (u "int too large to convert to float"))) as He.
  { intros H. vm_compute. reflexivity. }
  split; [apply Hs|]. split.
  - eexists. split; [apply He | reflexivity].
  - intros H. split; [apply Hs|]. intros [r Er]. rewrite He in Er. discriminate.
Qed.

Lemma shorthand_cups_to_g :
  @shorthand sample_host (u "2.5 cups to g") (u "2.5") (u "cups") (u "g").
Proof.
  exists [], (u " "), (u " "), (u "to"), (u " "), [].
  split; [reflexivity|]. split; [reflexivity|].
  split; [right; exists (u "2"), (u "5"); repeat split; discriminate|].
  split; [reflexivity|]. split; [split; [discriminate | reflexivity]|].
  split; [reflexivity|]. split; [left; reflexivity|].
  split; [reflexivity|]. split; [split; [discriminate | reflexivity]|]. reflexivity.
Qed.

(** C6 at "10 / 4", which has not the shape, and at "2.5 cups to g", which
    has it: the units it is read with are not in one table, and it fails
    with the conversion error for them. *)
Lemma C6_witness :
  (~ exists n u1 u2, @shorthand sample_host (u "10 / 4") n u1 u2)
  /\ exists u1 u2,
       ~ same_table (@str_lower sample_host u1) (@str_lower sample_host u2) /\
       @safe_eval sample_host (u "2.5 cups to g")
       = Err (Exn ValueError (@cant_convert u1 u2)).
Proof.
  split.
  - apply (proj1 (proj1 (@C6_shorthand_recogniser sample_host (u "10 / 4")))).
    vm_compute. reflexivity.
  - destruct (proj2 (proj2 (@C6_shorthand_recogniser sample_host (u "2.5 cups to g")))
                (ex_intro _ (u "2.5") (ex_intro _ (u "cups") (ex_intro _ (u "g")
                   shorthand_cups_to_g))))
      as (n & u1 & u2 & v & _ & _ & Hsame & Hnot).
    exists u1, u2.
    destruct (same_table_dec (@str_lower sample_host u1) (@str_lower sample_host u2))
      as [Hs | Hn].
    + exfalso. destruct (Hsame Hs) as (table & x & y & _ & _ & _ & Ex).
      vm_compute in Ex. discriminate.
    + split; [exact Hn | exact (Hnot Hn)].
Defined.


(** The claim C8 fails as stated: for the text of a string literal the
    handler answers [{"result": "abc"}], which is neither an error nor a
    number. *)
Lemma C8_counterexample :
  (forall (H : Host) st,
     @ast_parse H (u "'abc'") = Ok (Constant (VStr (u "abc"))) ->
     snd (@handle_calculate H {| expression := u "'abc'" |} st) = Result (VStr (u "abc")))
  /\ snd (@handle_calculate sample_host {| expression := u "'abc'" |} ∅)
     = Result (VStr (u "abc"))
  /\ is_number (VStr (u "abc")) = false.
Proof.
  split; [|split; [vm_compute; reflexivity | reflexivity]].
  intros H st Hp.
  assert (@try_unit_conversion H (u "'abc'") = Ok VNone) as Hs by (vm_compute; reflexivity).
  unfold handle_calculate, calculate_and_str. cbn [expression].
  rewrite (safe_eval_arithmetic _ Hs), Hp. reflexivity.
Qed.



(** * Further properties *)

(** ** The two evaluators *)

Lemma math_names_whitelisted id v :
  math_names !! id = Some v -> MATH_FUNCS !! id = Some v.
Proof.
  intros Hv. unfold MATH_FUNCS.
  destruct (decide (u "convert" = id)) as [<- | Hne].
  - exfalso. revert Hv. vm_compute. discriminate.
  - rewrite lookup_insert_ne by exact Hne. exact Hv.
Qed.

Section TwoEvaluators.
Context {H : Host}.

Lemma root_eval_refined : forall tree v, Root._eval tree = Ok v -> _eval tree = Ok v.
Proof.
  fix IH 1. intros tree v. destruct tree as
    [ c | l op r | op e | id | func args kws | | | | | | | | | ];
    cbn [Root._eval _eval]; try (intros E; exact E); try discriminate.
  - destruct (OPS_getitem (BinCls op)) as [f|]; cbn [bind]; [|intros E; exact E].
    destruct (Root._eval l) as [a|] eqn:El; cbn [bind]; [|discriminate].
    destruct (Root._eval r) as [b|] eqn:Er; cbn [bind]; [|discriminate].
    rewrite (IH l a El), (IH r b Er). cbn [bind]. intros E; exact E.
  - destruct (OPS_getitem (UnCls op)) as [f|]; cbn [bind]; [|intros E; exact E].
    destruct (Root._eval e) as [a|] eqn:Ee; cbn [bind]; [|discriminate].
    rewrite (IH e a Ee). cbn [bind]. intros E; exact E.
  - unfold Root.MATH. destruct (math_names !! id) as [w|] eqn:Ew; [|discriminate].
    rewrite (math_names_whitelisted id w Ew). intros E; exact E.
  - destruct (Root._eval func) as [f|] eqn:Ef; cbn [bind]; [|discriminate].
    rewrite (IH func f Ef). cbn [bind].
    match goal with
    | |- bind (?re args) _ = _ -> bind (?ne args) _ = _ =>
        assert (forall l vs, re l = Ok vs -> ne l = Ok vs) as Hargs
    end.
    { fix IHl 1. intros l vs. destruct l as [|a l]; [intros E; exact E|].
      destruct (Root._eval a) as [x|] eqn:Ea; cbn [bind]; [|discriminate].
      rewrite (IH a x Ea). cbn [bind].
      match goal with
      | |- bind ?m _ = _ -> _ => destruct m as [xs|] eqn:El; cbn [bind]; [|discriminate]
      end.
      rewrite (IHl l xs El). cbn [bind]. intros E; exact E. }
    match goal with
    | |- bind ?m _ = _ -> _ => destruct m as [vs|] eqn:Ea; cbn [bind]; [|discriminate]
    end.
    rewrite (Hargs args vs Ea). cbn [bind]. intros E; exact E.
Qed.


Lemma root_eval_error : forall tree e,
  Root._eval tree = Err e ->
  exc_type e = NameError \/ exists e', _eval tree = Err e' /\ exc_type e' = exc_type e.
Proof.
  fix IH 1. intros tree e. destruct tree as
    [ c | l op r | op x | id | func args kws | | | | | | | | | ];
    cbn [Root._eval _eval];
    try (intros E; injection E as <-; right; eexists; split; reflexivity);
    try discriminate.
  - destruct (OPS_getitem (BinCls op)) as [f|e0]; cbn [bind];
      [|intros E; injection E as <-; right; eauto].
    destruct (Root._eval l) as [a|e1] eqn:El; cbn [bind].
    + rewrite (root_eval_refined l a El). cbn [bind].
      destruct (Root._eval r) as [b|e2] eqn:Er; cbn [bind].
      * rewrite (root_eval_refined r b Er). cbn [bind]. intros E. right. eauto.
      * intros E. injection E as <-.
        destruct (IH r e2 Er) as [Hn | (e' & Ee & Hc)]; [left; exact Hn|].
        right. rewrite Ee. eauto.
    + intros E. injection E as <-.
      destruct (IH l e1 El) as [Hn | (e' & Ee & Hc)]; [left; exact Hn|].
      right. rewrite Ee. eauto.
  - destruct (OPS_getitem (UnCls op)) as [f|e0]; cbn [bind];
      [|intros E; injection E as <-; right; eauto].
    destruct (Root._eval x) as [a|e1] eqn:Ex; cbn [bind].
    + rewrite (root_eval_refined x a Ex). cbn [bind]. intros E. right. eauto.
    + intros E. injection E as <-.
      destruct (IH x e1 Ex) as [Hn | (e' & Ee & Hc)]; [left; exact Hn|].
      right. rewrite Ee. eauto.
  - unfold Root.MATH. destruct (math_names !! id); [discriminate|].
    intros E. injection E as <-. left. reflexivity.
  - destruct (Root._eval func) as [f|e1] eqn:Ef; cbn [bind].
    2:{ intros E. injection E as <-.
        destruct (IH func e1 Ef) as [Hn | (e' & Ee & Hc)]; [left; exact Hn|].
        right. rewrite Ee. eauto. }
    rewrite (root_eval_refined func f Ef). cbn [bind].
    match goal with
    | |- bind (?re args) _ = _ -> _ \/ (exists e', bind (?ne args) _ = _ /\ _) =>
        assert (forall l,
                  (forall vs, re l = Ok vs -> ne l = Ok vs) /\
                  (forall e1, re l = Err e1 ->
                     exc_type e1 = NameError \/
                     exists e', ne l = Err e' /\ exc_type e' = exc_type e1)) as Hargs
    end.
    { fix IHl 1. intros l. destruct l as [|a l]; [split; [intros vs E; exact E | discriminate]|].
      destruct (IHl l) as [Hok Herr].
      destruct (Root._eval a) as [x|e1] eqn:Ea; cbn [bind].
      - rewrite (root_eval_refined a x Ea). cbn [bind].
        match goal with
        | |- context [bind ?m _] => destruct m as [xs|e2] eqn:El; cbn [bind]
        end.
        + rewrite (Hok xs eq_refl). cbn [bind]. split; [intros vs E; exact E | discriminate].
        + split; [discriminate|]. intros e3 E. injection E as <-.
          destruct (Herr e2 eq_refl) as [Hn | (e' & Ee & Hc)]; [left; exact Hn|].
          right. rewrite Ee. eauto.
      - split; [discriminate|]. intros e3 E. injection E as <-.
        destruct (IH a e1 Ea) as [Hn | (e' & Ee & Hc)]; [left; exact Hn|].
        right. rewrite Ee. eauto. }
    destruct (Hargs args) as [Hok Herr].
    match goal with
    | |- bind ?m _ = _ -> _ => destruct m as [vs|e1] eqn:Ea; cbn [bind]
    end.
    + rewrite (Hok vs eq_refl). cbn [bind]. intros E. right. eauto.
    + intros E. injection E as <-.
      destruct (Herr e1 eq_refl) as [Hn | (e' & Ee & Hc)]; [left; exact Hn|].
      right. rewrite Ee. eauto.
Qed.

(** X1. The evaluator of the integration extends the older one of the root
    module: an expression the older evaluator gives a value has the same
    value, and one it refuses with anything but a [NameError] is refused
    with an exception of the same class; the same holds for the two
    [safe_eval] on a text that is not read as the shorthand. *)
Theorem evaluator_extends_root (tree : expr) (s : pystr) :
  (forall v, Root._eval tree = Ok v -> _eval tree = Ok v)
  /\ (forall e, Root._eval tree = Err e ->
        exc_type e = NameError \/
        exists e', _eval tree = Err e' /\ exc_type e' = exc_type e)
  /\ (try_unit_conversion s = Ok VNone ->
      forall v, Root.safe_eval s = Ok v -> safe_eval s = Ok v).
Proof.
  split; [apply root_eval_refined|]. split; [apply root_eval_error|].
  intros Hs v. rewrite (safe_eval_arithmetic s Hs). unfold Root.safe_eval.
  destruct (ast_parse s) as [t|]; cbn [bind]; [|discriminate].
  destruct (Root._eval t) as [r|] eqn:Er; cbn [bind]; [|discriminate].
  rewrite (root_eval_refined t r Er). intros E; exact E.
Qed.

(** ** Integer arithmetic *)

Lemma root_eval_int e z : int_denotes e z -> Root._eval e = Ok (VInt z).
Proof.
  induction 1 as [ z | e z _ IH | l r a b _ IHl _ IHr | l r a b _ IHl _ IHr
                 | l r a b _ IHl _ IHr | l r a b _ IHl _ IHr Hb
                 | l r a b _ IHl _ IHr Hb ];
    cbn [Root._eval OPS_getitem OPS bind]; rewrite ?IH, ?IHl, ?IHr; cbn [bind];
    try reflexivity.
  - cbn [call_op]. unfold py_binop. cbn [as_real real_binop int_binop].
    destruct (b =? 0) eqn:Eb; [apply Z.eqb_eq in Eb; contradiction | reflexivity].
  - cbn [call_op]. unfold py_binop. cbn [as_real real_binop int_binop].
    destruct (b <? 0) eqn:Eb; [apply Z.ltb_lt in Eb; lia | reflexivity].
Qed.

(** X2. Integer arithmetic is exact, with integers of any size: an
    expression of integer literals under negation, [+ - *], [%] by a
    divisor that is not zero and [**] with an exponent that is not negative
    evaluates, in both evaluators, to the integer it denotes ([%] is the
    floor modulo, with the sign of the divisor), and [calculate] returns
    that integer for a text the parser reads as such an expression. *)
Theorem integer_arithmetic_exact (e : expr) (z : Z) :
  int_denotes e z ->
  _eval e = Ok (VInt z)
  /\ Root._eval e = Ok (VInt z)
  /\ (forall s, try_unit_conversion s = Ok VNone -> ast_parse s = Ok e ->
        safe_eval s = Ok (VInt z))
  /\ (forall s, ast_parse s = Ok e -> Root.safe_eval s = Ok (VInt z)).
Proof.
  intros Hd. pose proof (root_eval_int e z Hd) as Er.
  pose proof (root_eval_refined e _ Er) as En.
  split; [exact En|]. split; [exact Er|]. split.
  - intros s Hs Hp. rewrite (safe_eval_arithmetic s Hs), Hp. cbn [bind].
    rewrite En. reflexivity.
  - intros s Hp. unfold Root.safe_eval. rewrite Hp. cbn [bind]. rewrite Er. reflexivity.
Qed.

(** ** The order of evaluation *)

Lemma mapM_first_error pre a post vs e :
  mapM _eval pre = Ok vs -> _eval a = Err e ->
  mapM _eval (pre ++ a :: post) = Err e.
Proof.
  revert vs. induction pre as [|p pre IH]; intros vs Hpre Ha; cbn [app mapM].
  - rewrite Ha. reflexivity.
  - cbn [mapM] in Hpre. destruct (_eval p); cbn [bind] in *; [|discriminate].
    destruct (mapM _eval pre) as [ws|] eqn:Ew; cbn [bind] in *; [|discriminate].
    rewrite (IH ws eq_refl Ha). reflexivity.
Qed.

(** X3. Errors are attributed in the order the source evaluates: the
    operator is looked up first, so that an operator that is not in the
    table gives the [KeyError] of the lookup whatever the operands are,
    also when they would fail themselves; then comes the left operand, then
    the right one. In a call the callee comes first and the arguments
    follow from left to right, so that the first argument that fails gives
    the error of the call, whatever the callee is and whatever follows. *)
Theorem evaluation_order :
  (forall l op r, OPS (BinCls op) = None ->
     _eval (BinOp l op r)
     = Err (Exn KeyError (u "<class 'ast." ++ op_class_name (BinCls op) ++ u "'>")))
  /\ (forall op operand, OPS (UnCls op) = None ->
        _eval (UnaryOp op operand)
        = Err (Exn KeyError (u "<class 'ast." ++ op_class_name (UnCls op) ++ u "'>")))
  /\ (forall op operand f e, OPS (UnCls op) = Some f -> _eval operand = Err e ->
        _eval (UnaryOp op operand) = Err e)
  /\ (forall l op r f e, OPS (BinCls op) = Some f -> _eval l = Err e ->
        _eval (BinOp l op r) = Err e)
  /\ (forall l op r f a e, OPS (BinCls op) = Some f -> _eval l = Ok a -> _eval r = Err e ->
        _eval (BinOp l op r) = Err e)
  /\ (forall func args kws e, _eval func = Err e -> _eval (Call func args kws) = Err e)
  /\ (forall func f pre a post kws vs e,
        _eval func = Ok f -> mapM _eval pre = Ok vs -> _eval a = Err e ->
        _eval (Call func (pre ++ a :: post) kws) = Err e).
Proof.
  split; [|split; [|split; [|split; [|split; [|split]]]]].
  - intros l op r Hop. cbn [_eval]. unfold OPS_getitem. rewrite Hop. reflexivity.
  - intros op operand Hop. cbn [_eval]. unfold OPS_getitem. rewrite Hop. reflexivity.
  - intros op operand f e Hop He. cbn [_eval]. unfold OPS_getitem. rewrite Hop. cbn [bind].
    rewrite He. reflexivity.
  - intros l op r f e Hop Hl. cbn [_eval]. unfold OPS_getitem. rewrite Hop. cbn [bind].
    rewrite Hl. reflexivity.
  - intros l op r f a e Hop Hl Hr. cbn [_eval]. unfold OPS_getitem. rewrite Hop. cbn [bind].
    rewrite Hl. cbn [bind]. rewrite Hr. reflexivity.
  - intros func args kws e Hf. cbn [_eval]. rewrite Hf. reflexivity.
  - intros func f pre a post kws vs e Hf Hpre Ha. rewrite eval_call, Hf. cbn [bind].
    rewrite (mapM_first_error pre a post vs e Hpre Ha). reflexivity.
Qed.

(** X4. A call that cannot be made gives no value: when the callee
    evaluates to something that is not callable (a number, a string), the
    call raises, with a [TypeError] once the arguments have evaluated; and
    [convert] called on other than three positional arguments raises a
    [TypeError]. *)
Theorem call_of_non_callable (func : expr) (args : list expr)
    (kws : list (option pystr * expr)) (v : value) :
  _eval func = Ok v ->
  (is_callable v = false ->
     (exists e, _eval (Call func args kws) = Err e) /\
     (forall vs, mapM _eval args = Ok vs ->
        exists e, _eval (Call func args kws) = Err e /\ exc_type e = TypeError))
  /\ (v = VFunc ConvertFn ->
      forall vs, mapM _eval args = Ok vs -> length vs <> 3%nat ->
        exists e, _eval (Call func args kws) = Err e /\ exc_type e = TypeError).
Proof.
  intros Hf. rewrite eval_call, Hf. cbn [bind]. split.
  - intros Hc.
    assert (forall vs, exists e, call_value v vs = Err e /\ exc_type e = TypeError) as Hcall.
    { intros vs. destruct v; try discriminate; eexists; split; reflexivity. }
    split.
    + destruct (mapM _eval args) as [vs|e]; cbn [bind]; [|eauto].
      destruct (Hcall vs) as (e & He & _). eauto.
    + intros vs Hvs. rewrite Hvs. cbn [bind]. apply Hcall.
  - intros -> vs Hvs Hlen. rewrite Hvs. cbn [bind call_value].
    destruct vs as [|a [|b [|c [|d vs]]]]; try (eexists; split; reflexivity).
    simpl in Hlen. congruence.
Qed.

End TwoEvaluators.

(** ** The results of the arithmetic path, and the handler *)

Section Results.
Context {H : Host}.

Lemma tidy_float r (f : float) : tidy r = VFloat f -> float_integral f = None.
Proof.
  destruct r as [ | g | | | | | | | ]; cbn [tidy]; try discriminate.
  destruct (float_integral g) eqn:Eg; [discriminate|].
  intros E. injection E as <-. exact Eg.
Qed.

Lemma tidy_idempotent r : tidy (tidy r) = tidy r.
Proof.
  destruct r as [ | g | | | | | | | ]; try reflexivity. cbn [tidy].
  destruct (float_integral g) eqn:Eg; [reflexivity|]. cbn [tidy]. rewrite Eg. reflexivity.
Qed.

(** X5. The arithmetic path never returns a whole float: when [calculate]
    answers a text that is not the shorthand with a float, and when the
    older [safe_eval] answers with a float, [is_integer] is false of it (it
    has a fractional part, or is infinite or not a number); tidying a
    result twice changes nothing more. *)
Theorem arithmetic_result_not_whole (s : pystr) (f : float) :
  (try_unit_conversion s = Ok VNone -> safe_eval s = Ok (VFloat f) ->
     float_integral f = None)
  /\ (Root.safe_eval s = Ok (VFloat f) -> float_integral f = None)
  /\ (forall r, tidy (tidy r) = tidy r).
Proof.
  split; [|split; [|exact tidy_idempotent]].
  - intros Hs. rewrite (safe_eval_arithmetic s Hs).
    destruct (ast_parse s) as [t|]; cbn [bind]; [|discriminate].
    destruct (_eval t) as [r|]; cbn [bind]; [|discriminate].
    intros E. injection E as E. exact (tidy_float r f E).
  - unfold Root.safe_eval.
    destruct (ast_parse s) as [t|]; cbn [bind]; [|discriminate].
    destruct (Root._eval t) as [r|]; cbn [bind]; [|discriminate].
    intros E. injection E as E. exact (tidy_float r f E).
Qed.

(** X7. What the user sees for a name that is not whitelisted differs
    between the two modules: the integration answers with the bare name as
    the error text, the root module with "Use of name '...' is not
    allowed"; both write the text, after "error: ", to the slot. In the
    root module [convert] is such a name. *)
Theorem unknown_name_error_text (call : ServiceCall) (st : states) (id : pystr) :
  ast_parse (expression call) = Ok (Name id) ->
  (try_unit_conversion (expression call) = Ok VNone -> MATH_FUNCS !! id = None ->
     handle_calculate call st
     = (async_set calculator_result (u "error: " ++ id) st, Error id))
  /\ (Root.MATH !! id = None ->
      Root.handle_calculate call st
      = (async_set calculator_result
           (u "error: " ++ u "Use of name '" ++ id ++ u "' is not allowed") st,
         Error (u "Use of name '" ++ id ++ u "' is not allowed")))
  /\ Root.MATH !! u "convert" = None.
Proof.
  intros Hp. split; [|split].
  - intros Hs Hid. unfold handle_calculate, calculate_and_str.
    rewrite (safe_eval_arithmetic _ Hs), Hp. cbn [bind _eval]. rewrite Hid. reflexivity.
  - intros Hid. unfold Root.handle_calculate, Root.calculate_and_str, Root.safe_eval.
    rewrite Hp. cbn [bind Root._eval]. rewrite Hid. reflexivity.
  - vm_compute. reflexivity.
Qed.

End Results.

(** ** The unit tables *)

Lemma unit_tables_positive table k v :
  (table = VOL_ML \/ table = MASS_G) -> table !! k = Some v -> positive_scale v = true.
Proof.
  intros [-> | ->] Hk;
    refine (map_Forall_bool (fun _ v => positive_scale v) _ _ k v Hk); vm_compute; reflexivity.
Qed.

Lemma unit_tables_plural table k v v' :
  (table = VOL_ML \/ table = MASS_G) ->
  table !! k = Some v -> table !! (k ++ u "s") = Some v' -> same_factor v v' = true.
Proof.
  intros Ht Hk Hs.
  assert (match table !! (k ++ u "s") with
          | Some w => same_factor v w
          | None => true
          end = true) as Hc.
  { destruct Ht as [-> | ->];
      refine (map_Forall_bool
                (fun k v => match _ !! (k ++ u "s") with
                            | Some w => same_factor v w
                            | None => true
                            end) _ _ k v Hk); vm_compute; reflexivity. }
  rewrite Hs in Hc. exact Hc.
Qed.

Lemma unit_tables_lower table k v :
  (table = VOL_ML \/ table = MASS_G) -> table !! k = Some v -> map ascii_lower k = k.
Proof.
  intros Ht Hk.
  assert (bool_decide (map ascii_lower k = k) = true) as Hc.
  { destruct Ht as [-> | ->];
      refine (map_Forall_bool (fun k _ => bool_decide (map ascii_lower k = k)) _ _ k v Hk);
      vm_compute; reflexivity. }
  apply bool_decide_eq_true in Hc. exact Hc.
Qed.

(** X8. The invariants of the unit tables that the converter relies on: no
    alias is in both tables; every factor is a finite, strictly positive
    number; every alias is stored in lower case, so that the lowercased
    unit of a request can find it; and an alias and its plural in [s] have
    the same factor. *)
Theorem unit_tables_invariants :
  (forall k, is_Some (VOL_ML !! k) -> is_Some (MASS_G !! k) -> False)
  /\ (forall table k v, (table = VOL_ML \/ table = MASS_G) ->
        table !! k = Some v -> positive_scale v = true)
  /\ (forall table k v, (table = VOL_ML \/ table = MASS_G) ->
        table !! k = Some v -> map ascii_lower k = k)
  /\ (forall table k v v', (table = VOL_ML \/ table = MASS_G) ->
        table !! k = Some v -> table !! (k ++ u "s") = Some v' ->
        same_factor v v' = true).
Proof.
  split; [exact not_both_tables|]. split; [exact unit_tables_positive|].
  split; [exact unit_tables_lower | exact unit_tables_plural].
Qed.

Section IntegerValues.
Context {H : Host}.

(** X9. For an integer value the converter does the arithmetic of the
    integers and floats of Python: with both units in one table it returns
    a float, or raises [OverflowError] when the integer is too large for a
    float, as for ten to the power 400; it never divides by zero. *)
Theorem convert_integer_value (z : Z) (f t : pystr) :
  (same_table (str_lower f) (str_lower t) ->
     (exists x, _convert (VInt z) (VStr f) (VStr t) = Ok (VFloat x)) \/
     (exists e, _convert (VInt z) (VStr f) (VStr t) = Err e /\ exc_type e = OverflowError))
  /\ (forall e, _convert (VInt z) (VStr f) (VStr t) = Err e ->
        exc_type e <> ZeroDivisionError)
  /\ (exists e, _convert (VInt (10 ^ 400)) (VStr (u "cup")) (VStr (u "ml")) = Err e
                /\ exc_type e = OverflowError).
Proof.
  split; [apply convert_integer|]. split.
  - intros e Ee.
    destruct (same_table_dec (str_lower f) (str_lower t)) as [Hs | Hn].
    + destruct (convert_integer z f t Hs) as [[x Ex] | (e' & Ex & Hc)]; rewrite Ex in Ee.
      * discriminate.
      * injection Ee as <-. rewrite Hc. discriminate.
    + rewrite (convert_not_same_table _ f t Hn) in Ee. injection Ee as <-. discriminate.
  - eexists. split; [vm_compute; reflexivity | reflexivity].
Qed.

End IntegerValues.

(** ** The shorthand read as it is written *)

Lemma connector_tokens_same c c' r r' :
  connector_token c -> connector_token c' -> c' ++ r' = c ++ r -> c' = c /\ r' = r.
Proof.
  intros [-> | [-> | [-> | ->]]] [-> | [-> | [-> | ->]]] E;
    vm_compute in E; try discriminate; (split; [reflexivity|]); congruence.
Qed.

Lemma connector_unit_chars_or_glyph c :
  connector_token c ->
  forallb is_unit_char c = true \/ (exists g, c = [g] /\ is_unit_char g = false).
Proof.
  intros [-> | [-> | [-> | ->]]];
    first [left; reflexivity | right; eexists; split; reflexivity].
Qed.

Lemma blank_outside_unit_chars w : blank w -> starts_outside is_unit_char w.
Proof.
  destruct w as [|c w]; [exact (fun _ => I)|]. unfold blank. simpl. intros Hw.
  apply andb_prop in Hw as [Hc _]. apply space_not_unit_char. exact Hc.
Qed.

Section Reading.
Context {H : Host}.
Hypothesis blank_not_digit : forall c, is_space c = true -> is_digit c = false.

Lemma digit_not_blank c : is_digit c = true -> is_space c = false.
Proof.
  intros Hd. destruct (is_space c) eqn:E; [|reflexivity].
  apply blank_not_digit in E. congruence.
Qed.

Lemma number_chars n : decimal_number n -> forallb is_number_char n = true.
Proof.
  assert (forall d, forallb is_digit d = true -> forallb is_number_char d = true) as Hd.
  { induction d as [|c d IH]; simpl; [reflexivity|]. intros E.
    apply andb_prop in E as [Hc E]. unfold is_number_char at 1. rewrite Hc, (IH E). reflexivity. }
  intros [[_ E] | (ip & fp & -> & [_ E1] & [_ E2])]; [apply Hd; exact E|].
  rewrite !forallb_app, (Hd ip E1), (Hd fp E2). reflexivity.
Qed.

Lemma blank_outside_number w : blank w -> starts_outside is_number_char w.
Proof.
  destruct w as [|c w]; [exact (fun _ => I)|]. unfold blank. simpl. intros Hw.
  apply andb_prop in Hw as [Hc _]. unfold is_number_char.
  rewrite (blank_not_digit c Hc). destruct (N.eqb c 46) eqn:E; [|reflexivity].
  apply N.eqb_eq in E. subst c. vm_compute in Hc. discriminate.
Qed.

Lemma number_outside_blank n r : decimal_number n -> starts_outside is_space (n ++ r).
Proof.
  assert (forall d r', d <> [] -> forallb is_digit d = true ->
            starts_outside is_space (d ++ r')) as Hd.
  { intros [|c d] r' Hne E; [congruence|]. simpl in *.
    apply andb_prop in E as [Hc _]. apply digit_not_blank. exact Hc. }
  intros [[Hne E] | (ip & fp & -> & [Hne E1] & _)]; [apply Hd; assumption|].
  rewrite <- app_assoc. apply Hd; assumption.
Qed.

(** A text whose connector is a token of its own reads in one way only. *)
Lemma shorthand_one_reading w0 n w1 u1 w2 c w3 u2 w4 n' u1' u2' :
  blank w0 -> decimal_number n -> blank w1 -> unit_name u1 ->
  blank w2 -> w2 <> [] -> connector_token c -> blank w3 -> w3 <> [] ->
  unit_name u2 -> blank w4 ->
  shorthand (w0 ++ n ++ w1 ++ u1 ++ w2 ++ c ++ w3 ++ u2 ++ w4) n' u1' u2' ->
  n' = n /\ u1' = u1 /\ u2' = u2.
Proof.
  intros Hw0 Hn Hw1 Hu1 Hw2 Nw2 Hc Hw3 Nw3 Hu2 Hw4
    (v0 & v1 & v2 & c' & v3 & v4 & E & Hv0 & Hn' & Hv1 & Hu1' & Hv2 & Hc' & Hv3 & Hu2' & Hv4).
  (* the text before the first unit *)
  assert ((w0 ++ n ++ w1) ++ u1 ++ w2 ++ c ++ w3 ++ u2 ++ w4
          = (v0 ++ n' ++ v1) ++ u1' ++ v2 ++ c' ++ v3 ++ u2' ++ v4) as E1.
  { rewrite <- !app_assoc. exact E. }
  apply run_unique with (p := fun c => negb (is_unit_char c)) in E1 as [EA E2];
    [ | apply prefix_no_unit_char; assumption | apply prefix_no_unit_char; assumption
      | apply unit_name_starts_inside; assumption
      | apply unit_name_starts_inside; assumption ].
  (* the number *)
  assert (n' = n) as ->.
  { apply run_unique with (p := is_space) in EA as [_ EA];
      [ | assumption | assumption | apply number_outside_blank; assumption
        | apply number_outside_blank; assumption ].
    apply run_unique with (p := is_number_char) in EA as [EA _];
      [ | apply number_chars; assumption | apply number_chars; assumption
        | apply blank_outside_number; assumption | apply blank_outside_number; assumption ].
    symmetry. exact EA. }
  split; [reflexivity|].
  (* the first unit *)
  pose proof Hu1 as [Nu1 Lu1]. pose proof Hu1' as [Nu1' Lu1'].
  apply run_prefix with (p := is_unit_char) in E2 as (x & Ex & E3);
    [ | assumption | assumption | apply blank_starts_outside; assumption ].
  destruct x as [|y x].
  - (* the same first unit *)
    rewrite app_nil_r in Ex. subst u1'. split; [reflexivity|].
    simpl in E3.
    apply run_unique with (p := is_space) in E3 as [_ E4];
      [ | assumption | assumption | apply connector_not_blank; assumption
        | apply connector_not_blank; assumption ].
    apply connector_tokens_same in E4 as [_ E5]; [ | assumption | assumption ].
    apply run_unique with (p := is_space) in E5 as [_ E6];
      [ | assumption | assumption | apply unit_name_starts_outside; assumption
        | apply unit_name_starts_outside; assumption ].
    destruct Hu2 as [Nu2 Lu2]. destruct Hu2' as [Nu2' Lu2'].
    apply run_unique with (p := is_unit_char) in E6 as [E7 _];
      [ | assumption | assumption | apply blank_outside_unit_chars; assumption
        | apply blank_outside_unit_chars; assumption ].
    exact E7.
  - (* a shorter first unit would put the connector inside the first word *)
    exfalso. subst u1. rewrite forallb_app in Lu1. apply andb_prop in Lu1 as [_ Lx].
    assert (v2 = []) as ->.
    { destruct v2 as [|z v2]; [reflexivity|]. simpl in E3. injection E3 as -> _.
      unfold blank in Hv2. simpl in Hv2, Lx.
      apply andb_prop in Hv2 as [Hz _]. apply andb_prop in Lx as [Hy _].
      apply space_not_unit_char in Hz. congruence. }
    simpl in E3.
    assert (exists x1, forallb is_unit_char x1 = true /\
                       v3 ++ u2' ++ v4 = x1 ++ w2 ++ c ++ w3 ++ u2 ++ w4) as (x1 & Lx1 & E4).
    { simpl in Lx. apply andb_prop in Lx as [Hy Lx].
      destruct w2 as [|s0 w2]; [congruence|].
      unfold blank in Hw2. simpl in Hw2. apply andb_prop in Hw2 as [Hs0 _].
      destruct Hc' as [-> | [-> | [-> | ->]]]; simpl in E3; injection E3 as <- E3;
        try (vm_compute in Hy; discriminate);
        (destruct x as [|y1 x]; simpl in E3;
         [ injection E3 as <- _; vm_compute in Hs0; discriminate
         | simpl in Lx; apply andb_prop in Lx as [_ Lx]; injection E3 as <- E3;
           exists x; split; [exact Lx | exact E3] ]). }
    destruct Hu2' as [Nu2' Lu2']. destruct Hu2 as [Nu2 Lu2].
    assert (forall z r, blank (z ++ r ++ u2 ++ w4) -> False) as Hblank.
    { intros z r Hb. unfold blank in Hb. rewrite !forallb_app in Hb.
      repeat (apply andb_prop in Hb as [? Hb]). apply Nu2. apply blank_unit_chars; assumption. }
    destruct x1 as [|y1 x1].
    + simpl in E4.
      apply run_unique with (p := is_space) in E4 as [_ E5];
        [ | assumption | assumption | apply unit_name_starts_outside; split; assumption
          | apply connector_not_blank; assumption ].
      destruct (connector_unit_chars_or_glyph c Hc) as [Lc | (g & -> & Hg)].
      * symmetry in E5.
        apply run_prefix with (p := is_unit_char) in E5 as (z & _ & E6);
          [ | assumption | assumption | apply blank_starts_outside; assumption ].
        subst v4. apply (Hblank z w3). exact Hv4.
      * destruct u2' as [|a u2']; [congruence|]. simpl in E5, Lu2'. injection E5 as -> _.
        apply andb_prop in Lu2' as [Ha _]. congruence.
    + assert (v3 = []) as ->.
      { destruct v3 as [|z v3]; [reflexivity|]. simpl in E4. injection E4 as -> _.
        unfold blank in Hv3. simpl in Hv3, Lx1.
        apply andb_prop in Hv3 as [Hz _]. apply andb_prop in Lx1 as [Hy1 _].
        apply space_not_unit_char in Hz. congruence. }
      simpl in E4. symmetry in E4.
      change (y1 :: x1 ++ w2 ++ c ++ w3 ++ u2 ++ w4)
        with ((y1 :: x1) ++ w2 ++ c ++ w3 ++ u2 ++ w4) in E4.
      apply run_prefix with (p := is_unit_char) in E4 as (z & _ & E6);
        [ | assumption | assumption | apply blank_starts_outside; assumption ].
      subst v4. apply (Hblank z (w2 ++ c ++ w3)). rewrite <- !app_assoc. exact Hv4.
Qed.

(** X10. A text made of a number, a unit, a connector and a unit, where
    the connector has at least one blank on each side (the blanks in front
    of the number, between the number and the first unit and at the end may
    be missing), is converted as it is written: the recogniser converts the
    float of that number from the first unit to the second, and for two
    units of one table [calculate] returns the number times the first
    factor divided by the second. Without the blanks around the connector
    the text may be read otherwise, see [glued_connector_read_otherwise].
    (No blank is a decimal digit: a fact of the Unicode tables.) *)
Theorem shorthand_read_as_written (w0 n w1 u1 w2 c w3 u2 w4 : pystr) :
  blank w0 -> decimal_number n -> blank w1 -> unit_name u1 ->
  blank w2 -> w2 <> [] -> connector_token c -> blank w3 -> w3 <> [] ->
  unit_name u2 -> blank w4 ->
  try_unit_conversion (w0 ++ n ++ w1 ++ u1 ++ w2 ++ c ++ w3 ++ u2 ++ w4)
  = (let! v := float_of_str n in _convert (VFloat v) (VStr u1) (VStr u2))
  /\ exists v, float_of_str n = Ok v /\
       forall table x y, (table = VOL_ML \/ table = MASS_G) ->
         scale table (str_lower u1) = Some x -> scale table (str_lower u2) = Some y ->
         safe_eval (w0 ++ n ++ w1 ++ u1 ++ w2 ++ c ++ w3 ++ u2 ++ w4)
         = Ok (VFloat (v * x / y)).
Proof.
  intros Hw0 Hn Hw1 Hu1 Hw2 Nw2 Hc Hw3 Nw3 Hu2 Hw4.
  set (s := w0 ++ n ++ w1 ++ u1 ++ w2 ++ c ++ w3 ++ u2 ++ w4).
  assert (shorthand s n u1 u2) as Hs.
  { exists w0, w1, w2, c, w3, w4. repeat (split; [first [reflexivity | assumption]|]).
    assumption. }
  assert (try_unit_conversion s
          = (let! v := float_of_str n in _convert (VFloat v) (VStr u1) (VStr u2))) as Et.
  { destruct (re_match CONV_RE s) as [m|] eqn:E;
      [|apply shorthand_re_match in Hs; congruence].
    unfold try_unit_conversion. rewrite E.
    apply re_match_shorthand in E as (n' & u1' & u2' & G1 & G2 & G3 & Hs').
    destruct (shorthand_one_reading w0 n w1 u1 w2 c w3 u2 w4 n' u1' u2') as (-> & -> & ->);
      try assumption.
    unfold group. rewrite G1, G2, G3. cbn [py_float].
    destruct (float_of_str n); reflexivity. }
  split; [exact Et|].
  destruct (float_of_number n Hn) as [v Hv]. exists v. split; [exact Hv|].
  intros table x y Ht Sx Sy. apply safe_eval_converted.
  rewrite Et, Hv. cbn [bind]. eapply convert_in_table; eassumption.
Qed.

(** With the connector glued to the units, "1 gintog" is not read as [g] in
    [tog]: the first unit is taken as long as it can be, [gin] to [g]. *)
Lemma glued_connector_read_otherwise :
  try_unit_conversion (u "1 gintog")
  = Err (Exn ValueError (cant_convert (u "gin") (u "g"))).
Proof. vm_compute. reflexivity. Qed.

End Reading.

Section Reach.
Context {H : Host}.

Lemma unit_name_ascii t : forallb is_unit_char t = true -> is_ascii t = true.
Proof.
  unfold is_ascii. induction t as [|c t IH]; simpl; [reflexivity|]. intros E.
  apply andb_prop in E as [Hc E]. rewrite (IH E), andb_true_r.
  unfold is_unit_char, in_range in Hc.
  repeat rewrite ?orb_true_iff, ?andb_true_iff, ?N.leb_le, ?N.eqb_eq in Hc.
  apply N.ltb_lt. lia.
Qed.

Lemma lower_keeps_unit_chars t :
  forallb is_unit_char t = true -> forallb is_unit_char (map ascii_lower t) = true.
Proof.
  induction t as [|c t IH]; simpl; [reflexivity|]. intros E.
  apply andb_prop in E as [Hc E]. rewrite (IH E), andb_true_r.
  unfold ascii_lower. destruct (in_range 65 90 c) eqn:Eu; [|exact Hc].
  unfold is_unit_char, in_range in *.
  repeat rewrite ?orb_true_iff, ?andb_true_iff, ?N.leb_le, ?N.eqb_eq in Eu.
  repeat rewrite ?orb_true_iff, ?andb_true_iff, ?N.leb_le, ?N.eqb_eq. lia.
Qed.

(** X11. The units of the shorthand are ASCII words, so lowercasing them
    needs no Unicode table and gives a word of letters and underscores: the
    shorthand can name [fl_oz] and [floz] but never the alias written with
    the non-breaking hyphen, which only a call of [convert] can reach. *)
Theorem shorthand_units_ascii (s n u1 u2 : pystr) :
  shorthand s n u1 u2 ->
  str_lower u1 = map ascii_lower u1 /\ str_lower u2 = map ascii_lower u2
  /\ forallb is_unit_char (str_lower u1) = true
  /\ forallb is_unit_char (str_lower u2) = true
  /\ str_lower u1 <> fl_hyphen_oz /\ str_lower u2 <> fl_hyphen_oz
  /\ is_Some (VOL_ML !! fl_hyphen_oz).
Proof.
  intros (w0 & w1 & w2 & c & w3 & w4 & _ & _ & _ & _ & [_ L1] & _ & _ & _ & [_ L2] & _).
  assert (forall t, forallb is_unit_char t = true ->
            str_lower t = map ascii_lower t /\ forallb is_unit_char (str_lower t) = true /\
            str_lower t <> fl_hyphen_oz) as Ht.
  { intros t L. unfold str_lower. rewrite (unit_name_ascii t L).
    split; [reflexivity|]. split; [apply lower_keeps_unit_chars; exact L|].
    intros E. apply lower_keeps_unit_chars in L. rewrite E in L. vm_compute in L.
    discriminate. }
  destruct (Ht u1 L1) as (E1 & K1 & N1). destruct (Ht u2 L2) as (E2 & K2 & N2).
  repeat (split; [assumption|]). eexists. vm_compute. reflexivity.
Qed.

End Reach.

(** * The further properties on concrete inputs *)

Lemma X1_witness :
  @_eval sample_host (BinOp (Constant (VInt 10)) Div (Constant (VInt 4))) = Ok (VFloat 2.5)
  /\ @safe_eval sample_host (u "10 / 5") = Ok (VInt 2).
Proof.
  pose proof (@evaluator_extends_root sample_host
                (BinOp (Constant (VInt 10)) Div (Constant (VInt 4))) (u "10 / 5"))
    as (Hv & _ & Hs).
  split.
  - apply Hv. vm_compute. reflexivity.
  - apply Hs; vm_compute; reflexivity.
Defined.

Lemma X2_witness :
  @safe_eval sample_host_names (u "2 + 3 * 4") = Ok (VInt 14).
Proof.
  assert (int_denotes (BinOp (Constant (VInt 2)) Add
                         (BinOp (Constant (VInt 3)) Mult (Constant (VInt 4)))) (2 + 3 * 4))
    as Hd by (repeat constructor).
  apply (proj1 (proj2 (proj2 (@integer_arithmetic_exact sample_host_names _ _ Hd)))).
  - vm_compute. reflexivity.
  - vm_compute. reflexivity.
Defined.

Lemma X3_witness :
  @_eval sample_host
     (Call (Constant (VInt 1))
        [Constant (VInt 2); Name (u "foo"); Name (u "bar")] [])
  = Err (Exn NameError (u "foo"))
  /\ @_eval sample_host (BinOp (Name (u "foo")) FloorDiv (Constant (VInt 2)))
     = Err (Exn KeyError (u "<class 'ast.FloorDiv'>"))
  /\ @_eval sample_host (BinOp (Name (u "foo")) Div (Name (u "bar")))
     = Err (Exn NameError (u "foo")).
Proof.
  pose proof (@evaluation_order sample_host) as (Hk & _ & _ & Hl & _ & _ & Ha).
  split; [|split].
  - apply (Ha (Constant (VInt 1)) (VInt 1) [Constant (VInt 2)] (Name (u "foo"))
             [Name (u "bar")] [] [VInt 2]).
    + reflexivity.
    + reflexivity.
    + vm_compute. reflexivity.
  - apply (Hk (Name (u "foo")) FloorDiv (Constant (VInt 2))). reflexivity.
  - apply (Hl (Name (u "foo")) Div (Name (u "bar")) op_truediv).
    + reflexivity.
    + vm_compute. reflexivity.
Defined.

Lemma X4_witness :
  exists e,
    @_eval sample_host (Call (Name (u "pi")) [Constant (VInt 2)] []) = Err e
    /\ exc_type e = TypeError.
Proof.
  refine (proj2 (proj1 (@call_of_non_callable sample_host (Name (u "pi"))
                          [Constant (VInt 2)] [] (VFloat math_pi) _) _) [VInt 2] _).
  - vm_compute. reflexivity.
  - reflexivity.
  - reflexivity.
Defined.

Lemma X5_witness : float_integral 2.5 = None.
Proof.
  apply (proj1 (@arithmetic_result_not_whole sample_host (u "10 / 4") 2.5)).
  - vm_compute. reflexivity.
  - vm_compute. reflexivity.
Defined.

Lemma X7_witness :
  snd (@handle_calculate sample_host_names {| expression := u "foo" |} ∅) = Error (u "foo")
  /\ snd (@Root.handle_calculate sample_host_names {| expression := u "foo" |} ∅)
     = Error (u "Use of name 'foo' is not allowed").
Proof.
  pose proof (@unknown_name_error_text sample_host_names {| expression := u "foo" |} ∅
                (u "foo") ltac:(vm_compute; reflexivity)) as (Hn & Hr & _).
  split.
  - rewrite Hn; [reflexivity | vm_compute; reflexivity | vm_compute; reflexivity].
  - rewrite Hr; [reflexivity | vm_compute; reflexivity].
Defined.

Lemma X8_witness :
  positive_scale (VFloat 236.588) = true
  /\ same_factor (VFloat 236.588) (VFloat 236.588) = true.
Proof.
  pose proof unit_tables_invariants as (_ & Hp & _ & Hs).
  split.
  - apply (Hp VOL_ML (u "cup")); [left; reflexivity | vm_compute; reflexivity].
  - apply (Hs VOL_ML (u "cup")); [left; reflexivity | vm_compute; reflexivity
                                  | vm_compute; reflexivity].
Defined.

Lemma X9_witness :
  (exists x, @_convert sample_host (VInt 2) (VStr (u "l")) (VStr (u "ml")) = Ok (VFloat x)) \/
  (exists e, @_convert sample_host (VInt 2) (VStr (u "l")) (VStr (u "ml")) = Err e
             /\ exc_type e = OverflowError).
Proof.
  apply (proj1 (@convert_integer_value sample_host 2 (u "l") (u "ml"))).
  left. split; [exists (VInt 1000) | exists (VInt 1)]; vm_compute; reflexivity.
Defined.

Lemma sample_blank_not_digit c : is_space c = true -> @is_digit sample_host c = false.
Proof.
  unfold is_digit, decimal_value, is_space, in_range. cbn [unicode_decimal sample_host].
  intros Hs. destruct (N.ltb c 128) eqn:E; [|reflexivity].
  destruct (N.leb 48 c && N.leb c 57)%bool eqn:Ed; [|reflexivity].
  exfalso. rewrite andb_true_iff, !N.leb_le in Ed.
  repeat rewrite ?orb_true_iff, ?andb_true_iff, ?N.leb_le, ?N.eqb_eq in Hs. lia.
Qed.

Lemma X10_witness :
  @try_unit_conversion sample_host (u "2.5 cups to ml")
  = bind (@float_of_str sample_host (u "2.5"))
      (fun v => @_convert sample_host (VFloat v) (VStr (u "cups")) (VStr (u "ml"))).
Proof.
  apply (proj1 (@shorthand_read_as_written sample_host sample_blank_not_digit
                  [] (u "2.5") (u " ") (u "cups") (u " ") (u "to") (u " ") (u "ml") []
                  ltac:(reflexivity)
                  ltac:(right; exists (u "2"), (u "5"); repeat split; discriminate)
                  ltac:(reflexivity)
                  ltac:(split; [discriminate | reflexivity])
                  ltac:(reflexivity) ltac:(discriminate)
                  ltac:(left; reflexivity)
                  ltac:(reflexivity) ltac:(discriminate)
                  ltac:(split; [discriminate | reflexivity])
                  ltac:(reflexivity))).
Defined.

Lemma X11_witness :
  @str_lower sample_host (u "CUPS") = map ascii_lower (u "CUPS")
  /\ @str_lower sample_host (u "g") <> fl_hyphen_oz.
Proof.
  pose proof (@shorthand_units_ascii sample_host (u "2.5 CUPS to g") (u "2.5") (u "CUPS") (u "g"))
    as Hx.
  assert (@shorthand sample_host (u "2.5 CUPS to g") (u "2.5") (u "CUPS") (u "g")) as Hs.
  { exists [], (u " "), (u " "), (u "to"), (u " "), [].
    split; [reflexivity|]. split; [reflexivity|].
    split; [right; exists (u "2"), (u "5"); repeat split; discriminate|].
    split; [reflexivity|]. split; [split; [discriminate | reflexivity]|].
    split; [reflexivity|]. split; [left; reflexivity|].
    split; [reflexivity|]. split; [split; [discriminate | reflexivity]|]. reflexivity. }
  destruct (Hx Hs) as (E1 & _ & _ & _ & _ & N2 & _).
  split; [exact E1 | exact N2].
Defined.
